(** * DataCleaner: a shallow embedding of [scripts/dataCleaner.py]

    The class [dataCleaner] is glue over pandas, numpy and scikit-learn.
    The development has three layers:

    - [Pandas]: the part of the table library the methods call (label
      lookup, null detection, per-column statistics, in-place column
      assignment), with Python's exceptions as an error monad over a
      store of tables and the console;
    - [DataCleaner]: the methods of the class, statement by statement;
    - the properties of the methods.

    Numbers.  A float cell is modelled by an exact rational ([Q]); NaN is
    the null cell.  Every statistic is therefore exact, where float64
    arithmetic would round.

    Libraries.  The script calls [np.product], which numpy 2 no longer has,
    so the table library is modelled as pandas 1.x behaves.  The clustering
    library is not modelled: the elbow sweep takes it as a parameter. *)

From Stdlib Require Import QArith Qround Qabs ZArith List String Lia Lqa Sorted.
From stdpp Require Import base option list gmap strings.

Local Open Scope Q_scope.

(* ===================================================================== *)
(** * The table library *)
(* ===================================================================== *)

Module Pandas.

(** ** Exceptions and results *)

(** The exception classes the methods can meet.  All of them derive from
    [Exception], so [except Exception] catches each one. *)
Inductive Exn : Type :=
  | AttributeError (attr : string)
  | KeyError (key : string)
  | ValueError (msg : string)
  | TypeError (msg : string)
  | NameError (name : string)
  | LibraryError (msg : string).

Inductive Result (A : Type) : Type :=
  | Ok (a : A)
  | Raise (e : Exn).
Arguments Ok {A} a.
Arguments Raise {A} e.

Definition rbind {A B} (r : Result A) (k : A -> Result B) : Result B :=
  match r with
  | Ok a => k a
  | Raise e => Raise e
  end.

(** ** Cells, columns, tables *)

(** A cell: null (NaN / None / NaT), a number, or a string.  A column that
    holds a string has dtype [object]; a column of nulls and numbers is
    numeric. *)
Inductive Cell : Type :=
  | Null
  | Num (q : Q)
  | Str (s : string).

Definition Series := list Cell.

(** A table: its number of rows and its labelled columns, in order. *)
Record DataFrame : Type := mkDataFrame {
  index_len : nat;
  columns : list (string * Series)
}.

(** Every column of a table has one cell per row. *)
Definition wf_frame (T : DataFrame) : Prop :=
  Forall (fun c => length (snd c) = index_len T) (columns T).

Definition isnull (c : Cell) : bool :=
  match c with Null => true | _ => false end.

Definition is_num (c : Cell) : bool :=
  match c with Str _ => false | _ => true end.

(** dtype test: no string cell. *)
Definition numeric (s : Series) : bool := forallb is_num s.

(** The non-null numbers of a column, in row order. *)
Fixpoint nums (s : Series) : list Q :=
  match s with
  | [] => []
  | Num q :: s' => q :: nums s'
  | _ :: s' => nums s'
  end.

(** ** Label lookup *)

Fixpoint lookup_col (name : string) (cs : list (string * Series)) : option Series :=
  match cs with
  | [] => None
  | (n, s) :: cs' => if String.eqb n name then Some s else lookup_col name cs'
  end.

(** [cs[name] = s]: an existing label keeps its position, a new one is
    appended. *)
Fixpoint assign_col (name : string) (s : Series) (cs : list (string * Series))
  : list (string * Series) :=
  match cs with
  | [] => [(name, s)]
  | (n, s0) :: cs' =>
      if String.eqb n name then (n, s) :: cs'
      else (n, s0) :: assign_col name s cs'
  end.

(** [T[name]] *)
Definition frame_getitem (T : DataFrame) (name : string) : Result Series :=
  match lookup_col name (columns T) with
  | Some s => Ok s
  | None => Raise (KeyError name)
  end.

(** [T.name], for a name that is no attribute of the class: pandas falls
    back to the column of that label. *)
Definition frame_getattr (T : DataFrame) (name : string) : Result Series :=
  match lookup_col name (columns T) with
  | Some s => Ok s
  | None => Raise (AttributeError name)
  end.

(** [T[name] = s]: the value must have one cell per row. *)
Definition frame_setitem (T : DataFrame) (name : string) (s : Series)
  : Result DataFrame :=
  if Nat.eqb (length s) (index_len T)
  then Ok (mkDataFrame (index_len T) (assign_col name s (columns T)))
  else Raise (ValueError "Length of values does not match length of index").

(** [T[names]]: a new table of the listed columns; the first absent label
    raises. *)
Fixpoint select_cols (names : list string) (cs : list (string * Series))
  : Result (list (string * Series)) :=
  match names with
  | [] => Ok []
  | n :: names' =>
      match lookup_col n cs with
      | None => Raise (KeyError n)
      | Some s => rbind (select_cols names' cs) (fun r => Ok ((n, s) :: r))
      end
  end.

Definition frame_getitem_list (T : DataFrame) (names : list string)
  : Result DataFrame :=
  rbind (select_cols names (columns T))
        (fun cs => Ok (mkDataFrame (index_len T) cs)).

(** ** Order statistics *)

Fixpoint insert_sorted (x : Q) (l : list Q) : list Q :=
  match l with
  | [] => [x]
  | y :: l' => if Qle_bool x y then x :: l else y :: insert_sorted x l'
  end.

Fixpoint sortQ (l : list Q) : list Q :=
  match l with
  | [] => []
  | x :: l' => insert_sorted x (sortQ l')
  end.

Definition sumQ (l : list Q) : Q := fold_right Qplus 0 l.

Definition Q_of_nat (n : nat) : Q := inject_Z (Z.of_nat n).

(** Linear-interpolation quantile of a non-empty sorted list: position
    [(n-1)p], between its two neighbours. *)
Definition quantile_sorted (v : list Q) (p : Q) : Q :=
  let pos := Q_of_nat (length v - 1) * p in
  let lo := Z.to_nat (Qfloor pos) in
  let frac := pos - inject_Z (Qfloor pos) in
  let a := nth lo v 0 in
  let b := nth (Nat.min (S lo) (length v - 1)) v 0 in
  Qred (a + frac * (b - a)).

Definition median_sorted (v : list Q) : Q :=
  let n := length v in
  if Nat.even n
  then Qred ((nth (n / 2 - 1) v 0 + nth (n / 2) v 0) / 2)
  else nth (n / 2) v 0.

(** [s.quantile(p)]: nulls are skipped; NaN for a column without numbers;
    a column of strings cannot be interpolated. *)
Definition Series_quantile (s : Series) (p : Q) : Result Cell :=
  if numeric s then
    match nums s with
    | [] => Ok Null
    | v => Ok (Num (quantile_sorted (sortQ v) p))
    end
  else Raise (TypeError "quantile of a non-numeric column").

(** [s.median()] *)
Definition Series_median (s : Series) : Result Cell :=
  if numeric s then
    match nums s with
    | [] => Ok Null
    | v => Ok (Num (median_sorted (sortQ v)))
    end
  else Raise (TypeError "median of a non-numeric column").

(** [s.mean()] *)
Definition Series_mean (s : Series) : Result Cell :=
  if numeric s then
    match nums s with
    | [] => Ok Null
    | v => Ok (Num (Qred (sumQ v / Q_of_nat (length v))))
    end
  else Raise (TypeError "mean of a non-numeric column").

(** [s.mode()]: the most frequent non-null values, sorted when the column
    has one kind of value (numbers, or strings), in order of first
    occurrence when it mixes them. *)
Definition cell_eqb (a b : Cell) : bool :=
  match a, b with
  | Null, Null => true
  | Num x, Num y => Qeq_bool x y
  | Str x, Str y => String.eqb x y
  | _, _ => false
  end.

Definition count_cell (c : Cell) (s : Series) : nat :=
  length (filter (fun d => Is_true (cell_eqb c d)) s).

Fixpoint dedup_cells (s : Series) : Series :=
  match s with
  | [] => []
  | c :: s' =>
      if existsb (cell_eqb c) s' then dedup_cells s' else c :: dedup_cells s'
  end.

Definition cell_leb (a b : Cell) : bool :=
  match a, b with
  | Num x, Num y => Qle_bool x y
  | Str x, Str y => String.leb x y
  | Null, _ => true
  | Num _, Str _ => true
  | _, _ => false
  end.

Fixpoint insert_cell (x : Cell) (l : Series) : Series :=
  match l with
  | [] => [x]
  | y :: l' => if cell_leb x y then x :: l else y :: insert_cell x l'
  end.

Definition sort_cells (l : Series) : Series := fold_right insert_cell [] l.

Definition is_str (c : Cell) : bool :=
  match c with Str _ => true | _ => false end.

Definition Series_mode (s : Series) : Series :=
  let vals := filter (fun c => Is_true (negb (isnull c))) s in
  let best := fold_right Nat.max 0%nat (map (fun c => count_cell c vals) vals) in
  let modes :=
    dedup_cells (rev (filter (fun c => Is_true (Nat.eqb (count_cell c vals) best))
                             (rev vals))) in
  if numeric vals || forallb is_str vals then sort_cells modes else modes.

(** ** Comparison and selection *)

Definition cell_gt (c t : Cell) : Result bool :=
  match c, t with
  | Str _, _ | _, Str _ => Raise (TypeError "'>' not supported between str and float")
  | Num x, Num y => Ok (negb (Qle_bool x y))
  | _, _ => Ok false
  end.

(** [s > t], cell by cell; a comparison with NaN is false. *)
Fixpoint Series_gt (s : Series) (t : Cell) : Result (list bool) :=
  match s with
  | [] => Ok []
  | c :: s' =>
      rbind (cell_gt c t) (fun b =>
      rbind (Series_gt s' t) (fun bs => Ok (b :: bs)))
  end.

(** [np.where(cond, x, y)] for a scalar [x] and a column [y] of the length
    of [cond]. *)
Fixpoint np_where (cond : list bool) (x : Cell) (y : Series) : Series :=
  match cond, y with
  | b :: cond', c :: y' => (if b then x else c) :: np_where cond' x y'
  | _, _ => []
  end.

(** ** Filling nulls *)

Inductive FillValue : Type :=
  | FScalar (c : Cell)
  | FSeries (s : Series).

Definition fill_cell (v c : Cell) : Cell := if isnull c then v else c.

(** Filling from a column aligns on the row index. *)
Fixpoint fill_aligned (s v : Series) : Series :=
  match s with
  | [] => []
  | c :: s' => (if isnull c then hd Null v else c) :: fill_aligned s' (tl v)
  end.

Definition fill_series (value : FillValue) (s : Series) : Series :=
  match value with
  | FScalar v => map (fill_cell v) s
  | FSeries v => fill_aligned s v
  end.

(** [s.fillna(value, axis=axis)]: a column has the single axis 0; any other
    axis number is rejected before anything is filled. *)
Definition Series_fillna (s : Series) (value : FillValue) (axis : Z)
  : Result Series :=
  if Z.eqb axis 0 then Ok (fill_series value s)
  else Raise (ValueError "No axis named 1 for object type Series").

(** [T.median()] and [T.mean()]: one statistic per column, indexed by the
    column label; a column whose statistic cannot be computed is left out
    (pandas 1.x, the version of the [np.product] era). *)
Fixpoint frame_stat (stat : Series -> Result Cell) (cs : list (string * Series))
  : list (string * Cell) :=
  match cs with
  | [] => []
  | (n, s) :: cs' =>
      match stat s with
      | Ok v => (n, v) :: frame_stat stat cs'
      | Raise _ => frame_stat stat cs'
      end
  end.

Definition frame_median (T : DataFrame) : list (string * Cell) :=
  frame_stat Series_median (columns T).

Definition frame_mean (T : DataFrame) : list (string * Cell) :=
  frame_stat Series_mean (columns T).

(** [T.fillna(value)] for a label-indexed [value]: a new table; for each
    [(k, v)] of [value] whose label is in the table, column [k] is filled
    with [v]. *)
Fixpoint fillna_items (value : list (string * Cell)) (cs : list (string * Series))
  : list (string * Series) :=
  match value with
  | [] => cs
  | (k, v) :: value' =>
      match lookup_col k cs with
      | None => fillna_items value' cs
      | Some s => fillna_items value' (assign_col k (map (fill_cell v) s) cs)
      end
  end.

Definition frame_fillna (T : DataFrame) (value : list (string * Cell)) : DataFrame :=
  mkDataFrame (index_len T) (fillna_items value (columns T)).

(** [T.drop(names, axis=1)]: every label must be present. *)
Definition frame_drop (T : DataFrame) (names : list string) : Result DataFrame :=
  match find (fun n => match lookup_col n (columns T) with
                       | None => true | Some _ => false end) names with
  | Some n => Raise (KeyError n)
  | None =>
      Ok (mkDataFrame (index_len T)
            (filter (fun c => Is_true (negb (existsb (String.eqb (fst c)) names)))
                    (columns T)))
  end.

(** ** Counting nulls *)

Fixpoint null_count (s : Series) : nat :=
  match s with
  | [] => 0%nat
  | c :: s' => ((if isnull c then 1 else 0) + null_count s')%nat
  end.

(** [T.isnull().sum()]: the number of nulls of each column. *)
Definition frame_isnull_sum (T : DataFrame) : list (string * nat) :=
  map (fun c => (fst c, null_count (snd c))) (columns T).

(** [.sum()] of that *)
Definition counts_sum (l : list (string * nat)) : nat :=
  fold_right Nat.add 0%nat (map snd l).

(** [np.product(T.shape)] *)
Definition np_product_shape (T : DataFrame) : nat :=
  (index_len T * length (columns T))%nat.

(** ** Float arithmetic on integers *)

(** [a / b] on numpy integers: a float.  Division by zero raises nothing:
    it warns and gives NaN for 0/0, the only case a table can produce (its
    nulls are among its cells), and the one modelled. *)
Definition np_true_divide (a b : nat) : Cell :=
  if Nat.eqb b 0 then Null else Num (Q_of_nat a / Q_of_nat b).

Definition cell_mul (c : Cell) (k : Q) : Cell :=
  match c with
  | Num q => Num (q * k)
  | _ => c
  end.

(** Nearest integer, ties to the even one. *)
Definition round_half_even (q : Q) : Z :=
  let f := Qfloor q in
  let r := q - inject_Z f in
  match Qcompare r (1 # 2) with
  | Lt => f
  | Gt => (f + 1)%Z
  | Eq => if Z.even f then f else (f + 1)%Z
  end.

Definition pow10 (n : nat) : Z := (10 ^ Z.of_nat n)%Z.

(** [round(x, ndigits)] *)
Definition round_to (q : Q) (ndigits : nat) : Q :=
  Qred (inject_Z (round_half_even (q * inject_Z (pow10 ndigits)))
        / inject_Z (pow10 ndigits)).

Definition py_round (c : Cell) (ndigits : nat) : Cell :=
  match c with
  | Num q => Num (round_to q ndigits)
  | _ => c
  end.

(** ** The store, the console and the monad of a method body *)

(** Tables are Python objects: a method receives a reference and mutates
    the table behind it.  [heap] maps references to tables; [stdout] is the
    console, one entry per [print] call. *)
Definition loc := nat.

Inductive Printed : Type :=
  | PText (s : string)
  | PValue (c : Cell)
  | PNames (l : list string)
  | PError (e : Exn).

Record World : Type := mkWorld {
  heap : gmap loc DataFrame;
  stdout : list (list Printed)
}.

(** A computation reads and writes a state and ends in a value or in a
    raised exception; what it wrote before raising stays written. *)
Definition ST (S A : Type) : Type := S -> Result A * S.

#[global] Instance ST_ret {S} : MRet (ST S) := fun A a w => (Ok a, w).

#[global] Instance ST_bind {S} : MBind (ST S) := fun A B k m w =>
  match m w with
  | (Ok a, w') => k a w'
  | (Raise e, w') => (Raise e, w')
  end.

Definition raise {S A} (e : Exn) : ST S A := fun w => (Raise e, w).

Definition lift {S A} (r : Result A) : ST S A := fun w => (r, w).

(** [try: body / except Exception as e: handler e] *)
Definition try_except {S A} (body : ST S A) (handler : Exn -> ST S A) : ST S A :=
  fun w =>
    match body w with
    | (Ok a, w') => (Ok a, w')
    | (Raise e, w') => handler e w'
    end.

Fixpoint for_each {S A} (l : list A) (body : A -> ST S unit) : ST S unit :=
  match l with
  | [] => mret tt
  | a :: l' => body a ;; for_each l' body
  end.

(** A method body whose state is the world. *)
Abbreviation M := (ST World).

Definition print (line : list Printed) : M unit := fun w =>
  (Ok tt, mkWorld (heap w) (stdout w ++ [line])).

(** Dereference.  A reference outside the store names no table; no caller
    can hold one, and the result is an error of the library. *)
Definition load (df : loc) : M DataFrame := fun w =>
  match heap w !! df with
  | Some T => (Ok T, w)
  | None => (Raise (LibraryError "no such table"), w)
  end.

Definition store (df : loc) (T : DataFrame) : M unit := fun w =>
  (Ok tt, mkWorld (<[df := T]> (heap w)) (stdout w)).

(** [df[name]], [df.name], [df[names]] on a reference *)
Definition getitem (df : loc) (name : string) : M Series :=
  T ← load df; lift (frame_getitem T name).

Definition getattr (df : loc) (name : string) : M Series :=
  T ← load df; lift (frame_getattr T name).

Definition getitem_list (df : loc) (names : list string) : M DataFrame :=
  T ← load df; lift (frame_getitem_list T names).

(** [df[name] = s], in place *)
Definition setitem (df : loc) (name : string) (s : Series) : M unit :=
  T ← load df; T' ← lift (frame_setitem T name s); store df T'.

(** [df[keys] = V] for a table [V]: as many columns as keys, then
    [for k1, k2 in zip(keys, V.columns): df[k1] = V[k2]]. *)
Definition setitem_list (df : loc) (keys : list string) (V : DataFrame) : M unit :=
  if Nat.eqb (length (columns V)) (length keys) then
    for_each (combine keys (map fst (columns V)))
      (fun kk => s ← lift (frame_getitem V (snd kk)); setitem df (fst kk) s)
  else raise (ValueError "Columns must be same length as key").

(** [df.drop(names, axis=1, inplace=True)] *)
Definition drop_inplace (df : loc) (names : list string) : M unit :=
  T ← load df; T' ← lift (frame_drop T names); store df T'.

(** [s.fillna(value=value, axis=axis, inplace=True)] for the column [s]
    that [df.name] returned: the filled column replaces it in its table. *)
Definition fillna_inplace (df : loc) (name : string) (s : Series)
    (value : FillValue) (axis : Z) : M unit :=
  s' ← lift (Series_fillna s value axis);
  T ← load df;
  store df (mkDataFrame (index_len T) (assign_col name s' (columns T))).

End Pandas.

(* ===================================================================== *)
(** * The class [dataCleaner] *)
(* ===================================================================== *)

Module DataCleaner.
Import Pandas.

(** The instance.  [__init__] assigns no attribute (the assignment of
    [self.df] is commented out), so [df] is set from outside, or not. *)
Record Self : Type := mkSelf { attr_df : option loc }.

(** What a method hands back: Python does not fix one type per method. *)
Inductive PyVal : Type :=
  | PyNone
  | PyFrame (df : loc)
  | PySeries (s : Series).

(** [self.df] *)
Definition self_df (self : Self) : M loc :=
  match attr_df self with
  | Some r => mret r
  | None => raise (AttributeError "df")
  end.

Definition init : M Self :=
  print [PText "Data cleaner in action."];; mret (mkSelf None).

Definition remove_unwanted_cols (self : Self) (cols : list string) : M PyVal :=
  try_except
    (r ← self_df self; drop_inplace r cols)
    (fun e => print [PError e]);;
  (* finally: *)
  r ← self_df self; mret (PyFrame r).

Definition percent_missing (df : loc) : M PyVal :=
  try_except
    (T ← load df;
     let totalCells := np_product_shape T in
     T ← load df;
     let missingCount := frame_isnull_sum T in
     let totalMissing := counts_sum missingCount in
     print [PText "The dataset contains";
            PValue (py_round (cell_mul (np_true_divide totalMissing totalCells)
                                       100) 10);
            PText "%"; PText "missing values."])
    (fun e => print [PError e]);;
  mret PyNone.

(** The statement in each loop of [fill_na] reads [self.df.col] and
    [df.col]: the attribute named [col], whatever the loop variable holds. *)
Definition fill_na_step (self : Self) (df : loc)
    (stat : Series -> Result FillValue) (col : string) : M unit :=
  r ← self_df self;
  target ← getattr r "col";
  src ← getattr df "col";
  value ← lift (stat src);
  fillna_inplace r "col" target value 1.

Definition fill_na (self : Self) (type : string) (df : loc) (cols : list string)
  : M PyVal :=
  try_except
    (if String.eqb type "mean" then
       for_each cols
         (fill_na_step self df
            (fun s => rbind (Series_mean s) (fun v => Ok (FScalar v))));;
       r ← self_df self; mret (PyFrame r)
     else if String.eqb type "median" then
       for_each cols
         (fill_na_step self df
            (fun s => rbind (Series_median s) (fun v => Ok (FScalar v))));;
       r ← self_df self; mret (PyFrame r)
     else if String.eqb type "mode" then
       for_each cols
         (fill_na_step self df (fun s => Ok (FSeries (Series_mode s))));;
       r ← self_df self; mret (PyFrame r)
     else
       print [PText "type must be either mean, median or mode"];;
       mret PyNone)
    (fun e => print [PError e];; mret PyNone).

Definition fillWithMedian (df : loc) (cols : list string) : M PyVal :=
  try_except
    (print [PText "columns to be filled with median values: "; PNames cols];;
     a ← getitem_list df cols;
     b ← getitem_list df cols;
     setitem_list df cols (frame_fillna a (frame_median b)))
    (fun e => print [PError e]);;
  mret (PyFrame df).

Definition fillWithMean (df : loc) (cols : list string) : M PyVal :=
  try_except
    (print [PText "columns to be filled with mean values: "; PNames cols];;
     a ← getitem_list df cols;
     b ← getitem_list df cols;
     setitem_list df cols (frame_fillna a (frame_mean b)))
    (fun e => print [PError e]);;
  mret (PyFrame df).

Definition fix_outlier (df : loc) (column : string) : M PyVal :=
  try_except
    (print [PText "column to be filled with median values: "; PText column];;
     a ← getitem df column;
     b ← getitem df column;
     q ← lift (Series_quantile b (95 # 100));
     cond ← lift (Series_gt a q);
     c ← getitem df column;
     m ← lift (Series_median c);
     d ← getitem df column;
     setitem df column (np_where cond m d))
    (fun e => print [PError e]);;
  r ← getitem df column; mret (PySeries r).

(** ** The elbow sweep *)

Section KMeans.

(** The clustering library, as the method uses it.  [F] is the type of
    floats and [Centers] that of a fitted model's centroids. *)
Variables (F Centers : Type).

Record KModel : Type := mkKModel {
  cluster_centers_ : Centers;
  inertia_ : F
}.

(** [KMeans(n_clusters=k, random_state=777).fit(T)] *)
Variable KMeans_fit : Z -> DataFrame -> Result KModel.
(** [cdist(T, centers, 'euclidean')]: one row of distances per row of [T] *)
Variable cdist : DataFrame -> Centers -> Result (list (list F)).
(** [np.min(m, axis=1)] *)
Variable np_min_rows : list (list F) -> Result (list F).
(** the builtin [sum] *)
Variable py_sum : list F -> F.
(** [x / n] *)
Variable div_by : F -> nat -> Result F.

(** The local variables of [choose_k_means]; a name is unbound until its
    first assignment. *)
Record Locals : Type := mkLocals {
  distortions : option (list F);
  inertias : option (list F)
}.

Abbreviation L := (ST (World * Locals)).

Definition in_world {A} (m : M A) : L A := fun s =>
  let '(r, w') := m (fst s) in (r, (w', snd s)).

Definition set_distortions (l : list F) : L unit := fun s =>
  (Ok tt, (fst s, mkLocals (Some l) (inertias (snd s)))).

Definition set_inertias (l : list F) : L unit := fun s =>
  (Ok tt, (fst s, mkLocals (distortions (snd s)) (Some l))).

Definition get_distortions : L (list F) := fun s =>
  match distortions (snd s) with
  | Some l => (Ok l, s)
  | None => (Raise (NameError "distortions"), s)
  end.

Definition get_inertias : L (list F) := fun s =>
  match inertias (snd s) with
  | Some l => (Ok l, s)
  | None => (Raise (NameError "inertias"), s)
  end.

(** [range(lo, hi)] *)
Definition py_range (lo hi : Z) : list Z := seqZ lo (hi - lo).

(** One turn of the loop. *)
Definition sweep_step (df : loc) (k : Z) : L unit :=
  T ← in_world (load df);
  k_means ← lift (KMeans_fit k T);
  ds ← get_distortions;
  T ← in_world (load df);
  m ← lift (cdist T (cluster_centers_ k_means));
  mins ← lift (np_min_rows m);
  T ← in_world (load df);
  d ← lift (div_by (py_sum mins) (index_len T));
  set_distortions (ds ++ [d]);;
  ins ← get_inertias;
  set_inertias (ins ++ [inertia_ k_means]).

Definition choose_k_means_body (df : loc) (num : Z) : L (list F * list F) :=
  try_except
    (set_distortions [];;
     set_inertias [];;
     let K := py_range 1 num in
     for_each K (sweep_step df))
    (fun e => in_world (print [PError e]));;
  ds ← get_distortions;
  ins ← get_inertias;
  mret (ds, ins).

Definition choose_k_means (df : loc) (num : Z) : M (list F * list F) := fun w =>
  let '(r, s) := choose_k_means_body df num (w, mkLocals None None) in
  (r, fst s).

End KMeans.

Arguments mkKModel {F Centers} _ _.
Arguments cluster_centers_ {F Centers} _.
Arguments inertia_ {F Centers} _.
Arguments mkLocals {F} _ _.
Arguments distortions {F} _.
Arguments inertias {F} _.
Arguments in_world {F A} _ _.
Arguments set_distortions {F} _ _.
Arguments set_inertias {F} _ _.
Arguments get_distortions {F} _.
Arguments get_inertias {F} _.
Arguments sweep_step {F Centers} _ _ _ _ _ _ _.
Arguments choose_k_means_body {F Centers} _ _ _ _ _ _ _.
Arguments choose_k_means {F Centers} _ _ _ _ _ _ _.

End DataCleaner.

(* ===================================================================== *)
(** * Reference notions and sample tables *)
(* ===================================================================== *)

Module Reference.
Import Pandas DataCleaner.

(** The line [fix_outlier] prints before it clips. *)
Definition outlier_line (column : string) : list Printed :=
  [PText "column to be filled with median values: "; PText column].


(** The statistic handed to [fillna] in each branch of [fill_na], the body
    of a branch, and the handler of the guard. *)
Definition stat_mean (s : Series) : Result FillValue :=
  rbind (Series_mean s) (fun v => Ok (FScalar v)).
Definition stat_median (s : Series) : Result FillValue :=
  rbind (Series_median s) (fun v => Ok (FScalar v)).
Definition stat_mode (s : Series) : Result FillValue :=
  Ok (FSeries (Series_mode s)).

Definition fill_na_handler (e : Exn) : M PyVal :=
  print [PError e];; mret PyNone.


Definition fill_na_branch (self : Self) (df : loc)
    (stat : Series -> Result FillValue) (cols : list string) : M PyVal :=
  for_each cols (fill_na_step self df stat);;
  r ← self_df self; mret (PyFrame r).


(** The common shape of [fillWithMedian] and [fillWithMean]. *)
Definition fill_with_stat (msg : string) (stat : Series -> Result Cell)
    (df : loc) (cols : list string) : M PyVal :=
  try_except
    (print [PText msg; PNames cols];;
     a ← getitem_list df cols;
     b ← getitem_list df cols;
     setitem_list df cols (frame_fillna a (frame_stat stat (columns b))))
    (fun e => print [PError e]);;
  mret (PyFrame df).



(** Filling the listed columns, seen from the table: [orig] gives the
    columns as they were and [value] the statistic of each. *)
Section FillColumns.
Variable orig : string -> Series.
Variable value : string -> Cell.

Definition filled (c : string) : Series := map (fill_cell (value c)) (orig c).

(** Every column is still as it was, or already filled. *)
Definition partly_filled (cs : list (string * Series)) : Prop :=
  forall k s, lookup_col k cs = Some s -> s = orig k \/ s = filled k.

(** Assigning the filled columns, one label after the other. *)
Definition assign_filled (cols : list string) (cs : list (string * Series))
  : list (string * Series) :=
  fold_left (fun acc c => assign_col c (filled c) acc) cols cs.

End FillColumns.

Definition col_or_nil (cs : list (string * Series)) (c : string) : Series :=
  match lookup_col c cs with Some s => s | None => [] end.

Definition stat_or_null (stat : Series -> Result Cell) (s : Series) : Cell :=
  match stat s with Ok v => v | Raise _ => Null end.


(** The null cells of a table, counted row by row: row [i] of the table is
    the list of the cells its columns hold at [i]. *)
Definition sum_nat (l : list nat) : nat := fold_right Nat.add 0%nat l.

Definition row (cs : list (string * Series)) (i : nat) : list Cell :=
  map (fun c => nth i (snd c) (Num 0)) cs.

Definition null_cells_of (n : nat) (cs : list (string * Series)) : nat :=
  sum_nat (map (fun i => null_count (row cs i)) (seq 0 n)).

Definition null_cells (T : DataFrame) : nat :=
  null_cells_of (index_len T) (columns T).

(** The share of null cells, in percent, as an exact rational. *)
Definition exact_percent_missing (T : DataFrame) : Q :=
  100 * Q_of_nat (null_cells T)
  / Q_of_nat (index_len T * length (columns T)).

(** The line [percent_missing] prints. *)
Definition percent_line (v : Q) : list Printed :=
  [PText "The dataset contains"; PValue (Num v); PText "%";
   PText "missing values."].


(** The elbow sweep, candidate by candidate. *)
Section SweepReference.
Variables (F Centers : Type).
Variable KMeans_fit : Z -> DataFrame -> Result (KModel F Centers).
Variable cdist : DataFrame -> Centers -> Result (list (list F)).
Variable np_min_rows : list (list F) -> Result (list F).
Variable py_sum : list F -> F.
Variable div_by : F -> nat -> Result F.

(** The entry of candidate [k]: its mean distortion and its inertia, or
    the exception that fitting or measuring it raises. *)
Definition sweep_entry (T : DataFrame) (k : Z) : Result (F * F) :=
  rbind (KMeans_fit k T) (fun k_means =>
  rbind (cdist T (cluster_centers_ k_means)) (fun m =>
  rbind (np_min_rows m) (fun mins =>
  rbind (div_by (py_sum mins) (index_len T)) (fun d =>
  Ok (d, inertia_ k_means))))).

(** The entries of the candidates up to the first that raises, and what it
    raises. *)
Fixpoint sweep_prefix (T : DataFrame) (K : list Z) : list (F * F) * option Exn :=
  match K with
  | [] => ([], None)
  | k :: K' =>
      match sweep_entry T k with
      | Raise e => ([], Some e)
      | Ok di => (di :: fst (sweep_prefix T K'), snd (sweep_prefix T K'))
      end
  end.

End SweepReference.

Arguments sweep_entry {F Centers} _ _ _ _ _ _ _.
Arguments sweep_prefix {F Centers} _ _ _ _ _ _ _.


(** How the loop of the sweep ends, and the world after the guard. *)
Definition outcome (err : option Exn) : Result unit :=
  match err with None => Ok tt | Some e => Raise e end.

Definition after_sweep (w : World) (err : option Exn) : World :=
  match err with
  | None => w
  | Some e => mkWorld (heap w) (stdout w ++ [[PError e]])
  end.

End Reference.

Module Samples.
Import Pandas DataCleaner.

(** One column with a high outlier. *)
Definition X : Series := [Num 1; Num 2; Num 3; Num 100].
Definition table_X : DataFrame := mkDataFrame 4 [("X", X)].
Definition world_X : World := mkWorld {[ 0%nat := table_X ]} [].

(** A column that the first clipping makes constant. *)
Definition Y : Series := [Num 1; Num 1; Num 1; Num 1; Num 10].
Definition table_Y : DataFrame := mkDataFrame 5 [("Y", Y)].
Definition world_Y : World := mkWorld {[ 0%nat := table_Y ]} [].

(** A numeric column with a null, and a column of strings. *)
Definition table_AB : DataFrame :=
  mkDataFrame 3 [("A", [Num 1; Null; Num 3]); ("B", [Str "a"; Null; Str "b"])].
Definition world_AB : World := mkWorld {[ 0%nat := table_AB ]} [].


(** Ten rows, three columns, two nulls in [A]. *)
Definition table_10x3 : DataFrame :=
  mkDataFrame 10
    [("A", [Null; Null; Num 1; Num 1; Num 1; Num 1; Num 1; Num 1; Num 1; Num 1]);
     ("B", repeat (Num 2) 10);
     ("C", repeat (Num 3) 10)].
Definition world_10x3 : World := mkWorld {[ 0%nat := table_10x3 ]} [].

(** A stand-in for the clustering library, with rational floats: a fit
    needs at least as many rows as clusters; every distance is 1. *)
Definition toy_fit (k : Z) (T : DataFrame) : Result (KModel Q unit) :=
  if (k <=? Z.of_nat (index_len T))%Z
  then Ok (mkKModel tt (inject_Z k))
  else Raise (ValueError "n_samples should be >= n_clusters").

Definition toy_cdist (T : DataFrame) (centers : unit) : Result (list (list Q)) :=
  Ok (repeat [1] (index_len T)).

Definition toy_min_rows (m : list (list Q)) : Result (list Q) :=
  Ok (map (fun r => hd 0 r) m).

Definition toy_div (x : Q) (n : nat) : Result Q := Ok (x / Q_of_nat n).


(** Two rows: the stand-in library fits one and two clusters, not three. *)
Definition table_2 : DataFrame := mkDataFrame 2 [("x", [Num 0; Num 10])].
Definition world_2 : World := mkWorld {[ 0%nat := table_2 ]} [].

End Samples.

(* ===================================================================== *)
(** * The remaining methods *)
(* ===================================================================== *)

(** Row selection, as [computeBasicAnalysisOnClusters] uses it. *)
Module Rows.
Import Pandas.

(** [c == i] for an integer [i]: a null or a string equals no number, and
    the comparison raises nothing. *)
Definition cell_eq_int (c : Cell) (i : Z) : bool :=
  match c with
  | Num q => Qeq_bool q (inject_Z i)
  | _ => false
  end.

(** [s == i], cell by cell *)
Definition Series_eq_int (s : Series) (i : Z) : list bool :=
  map (fun c => cell_eq_int c i) s.

(** The cells of a column at the rows a mask selects. *)
Fixpoint select_rows (mask : list bool) (s : Series) : Series :=
  match mask, s with
  | b :: mask', c :: s' =>
      if b then c :: select_rows mask' s' else select_rows mask' s'
  | _, _ => []
  end.

Fixpoint count_true (mask : list bool) : nat :=
  match mask with
  | [] => 0%nat
  | b :: mask' => ((if b then 1 else 0) + count_true mask')%nat
  end.

(** [T[mask]]: a new table of the selected rows; the mask must have one
    entry per row. *)
Definition frame_getitem_mask (T : DataFrame) (mask : list bool)
  : Result DataFrame :=
  if Nat.eqb (length mask) (index_len T)
  then Ok (mkDataFrame (count_true mask)
             (map (fun c => (fst c, select_rows mask (snd c))) (columns T)))
  else Raise (ValueError "Item wrong length").

(** [n * s] for a string [s] *)
Fixpoint str_repeat (s : string) (n : nat) : string :=
  match n with
  | O => EmptyString
  | S n' => String.append s (str_repeat s n')
  end.

(** The one-character string that [print] receives as ["\n"]. *)
Definition newline : string := String (Ascii.ascii_of_nat 10) EmptyString.

End Rows.

Module DataCleanerRest.
Import Pandas DataCleaner Rows.

Section ToDatetime.

(** [pd.to_datetime(s, errors='coerce')]: the date parser of the table
    library, a parameter here.  A value it cannot parse becomes the null
    cell (NaT) of the column it returns. *)
Variable to_datetime : Series -> Result Series.

Definition convert_to_datetime (df : loc) : M PyVal :=
  try_except
    (s ← getitem df "Start";
     s' ← lift (to_datetime s);
     setitem df "Start" s';;
     e ← getitem df "End";
     e' ← lift (to_datetime e);
     setitem df "End" e')
    (fun e => print [PError e]);;
  mret (PyFrame df).

End ToDatetime.

Section Describe.

(** [T.describe()] as [print] shows it: the statistics table of the
    library, rendered; a parameter here. *)
Variable describe : DataFrame -> Result string.

(** One turn of the loop of [computeBasicAnalysisOnClusters]. *)
Definition cluster_step (df : loc) (cluster_col : string) (cols : list string)
    (i : Z) : M unit :=
  labels ← getitem df cluster_col;
  T ← load df;
  cluster ← lift (frame_getitem_mask T (Series_eq_int labels i));
  print [PText (String.append "Cluster " (str_repeat "I" (Z.to_nat (i + 1))))];;
  sub ← lift (frame_getitem_list cluster cols);
  text ← lift (describe sub);
  print [PText text];;
  print [PText newline].

Definition computeBasicAnalysisOnClusters (df : loc) (cluster_col : string)
    (cluster_size : Z) (cols : list string) : M PyVal :=
  try_except
    (for_each (py_range 0 cluster_size) (cluster_step df cluster_col cols))
    (fun e => print [PError e]);;
  mret PyNone.

End Describe.

End DataCleanerRest.

(** Reference notions for the properties of the methods. *)
Module ReferenceRest.
Import Pandas DataCleaner Reference Rows DataCleanerRest.

(** The labels a call lists, and the columns a drop keeps. *)
Definition listed (names : list string) (n : string) : bool :=
  existsb (String.eqb n) names.

Definition kept_columns (names : list string) (cs : list (string * Series))
  : list (string * Series) :=
  List.filter (fun c => negb (listed names (fst c))) cs.

(** What the two statistics have in common. *)
Definition column_statistic (stat : Series -> Result Cell) : Prop :=
  forall s, numeric s = true ->
    (nums s = [] /\ stat s = Ok Null) \/
    (nums s <> [] /\ exists t, stat s = Ok (Num t)).

(** A call on [df] that filled the columns [cols] left the rest alone. *)
Definition keeps_rest (T : DataFrame) (cols : list string) (df : loc)
    (w : World) (out : Result PyVal * World) : Prop :=
  fst out = Ok (PyFrame df) /\
  exists T', heap (snd out) !! df = Some T' /\
    index_len T' = index_len T /\
    map fst (columns T') = map fst (columns T) /\
    (forall c, ~ In c cols ->
       lookup_col c (columns T') = lookup_col c (columns T)) /\
    wf_frame T' /\
    (forall df', df' <> df -> heap (snd out) !! df' = heap w !! df').


(** The banner of cluster [i], the table of its rows restricted to the
    listed columns, and the three lines of its turn. *)
Definition banner (i : Z) : list Printed :=
  [PText (String.append "Cluster " (str_repeat "I" (Z.to_nat (i + 1))))].

Definition cluster_table (T : DataFrame) (cluster_col : string)
    (cols : list string) (i : Z) : Result DataFrame :=
  rbind (frame_getitem T cluster_col) (fun labels =>
  rbind (frame_getitem_mask T (Series_eq_int labels i)) (fun cluster =>
  frame_getitem_list cluster cols)).

Section DescribeFacts.
Variable describe : DataFrame -> Result string.

Definition cluster_text (T : DataFrame) (cluster_col : string)
    (cols : list string) (i : Z) : Result string :=
  rbind (cluster_table T cluster_col cols i) describe.

Definition cluster_block (T : DataFrame) (cluster_col : string)
    (cols : list string) (i : Z) : list (list Printed) :=
  [banner i;
   [PText (match cluster_text T cluster_col cols i with
           | Ok text => text | Raise _ => EmptyString end)];
   [PText newline]].
End DescribeFacts.

End ReferenceRest.

Module SamplesRest.
Import Pandas DataCleaner Rows.

(** An entirely null column beside one with a null. *)
Definition table_NV : DataFrame :=
  mkDataFrame 2 [("N", [Null; Null]); ("V", [Num 4; Null])].
Definition world_NV : World := mkWorld {[ 0%nat := table_NV ]} [].

Definition table_N : DataFrame := mkDataFrame 2 [("N", [Null; Null])].
Definition world_N : World := mkWorld {[ 0%nat := table_N ]} [].

(** A table without rows. *)
Definition table_empty : DataFrame := mkDataFrame 0 [("A", [])].
Definition world_empty : World := mkWorld {[ 0%nat := table_empty ]} [].

(** A stand-in for the date parser: a number is taken as a time stamp,
    anything else is not a time. *)
Definition toy_to_datetime (s : Series) : Result Series :=
  Ok (map (fun c => match c with Num q => Num q | _ => Null end) s).
Definition table_SE : DataFrame :=
  mkDataFrame 2 [("Start", [Num 1; Str "soon"]); ("End", [Num 2; Null]);
                 ("Dur", [Num 5; Num 6])].
Definition world_SE : World := mkWorld {[ 0%nat := table_SE ]} [].
Definition table_S : DataFrame :=
  mkDataFrame 2 [("Start", [Num 1; Str "soon"]); ("Dur", [Num 5; Num 6])].
Definition world_S : World := mkWorld {[ 0%nat := table_S ]} [].

(** A stand-in for the rendered statistics: one mark per row. *)
Definition toy_describe (U : DataFrame) : Result string :=
  Ok (str_repeat "*" (index_len U)).
Definition table_K : DataFrame :=
  mkDataFrame 3 [("k", [Num 0; Num 1; Num 0]); ("v", [Num 5; Num 6; Num 7])].
Definition world_K : World := mkWorld {[ 0%nat := table_K ]} [].

End SamplesRest.

(* ===================================================================== *)
(** * Properties *)
(* ===================================================================== *)

Import Pandas DataCleaner Reference.

(** ** Running a computation *)

Section Run.
Context {S : Type}.

Lemma bind_ok {A B} (m : ST S A) (k : A -> ST S B) w a w' :
  m w = (Ok a, w') -> (m ≫= k) w = k a w'.
Proof. intros H. unfold mbind, ST_bind. now rewrite H. Qed.

Lemma bind_raise {A B} (m : ST S A) (k : A -> ST S B) w e w' :
  m w = (Raise e, w') -> (m ≫= k) w = (Raise e, w').
Proof. intros H. unfold mbind, ST_bind. now rewrite H. Qed.

Lemma try_ok {A} (m : ST S A) h w a w' :
  m w = (Ok a, w') -> try_except m h w = (Ok a, w').
Proof. intros H. unfold try_except. now rewrite H. Qed.

Lemma try_raise {A} (m : ST S A) h w e w' :
  m w = (Raise e, w') -> try_except m h w = h e w'.
Proof. intros H. unfold try_except. now rewrite H. Qed.

End Run.

Lemma load_run w df T : heap w !! df = Some T -> load df w = (Ok T, w).
Proof. intros H. unfold load. now rewrite H. Qed.

Lemma getitem_run w df T name :
  heap w !! df = Some T -> getitem df name w = (frame_getitem T name, w).
Proof.
  intros H. unfold getitem. now rewrite (bind_ok _ _ _ _ _ (load_run _ _ _ H)).
Qed.

Lemma getitem_list_run w df T names :
  heap w !! df = Some T ->
  getitem_list df names w = (frame_getitem_list T names, w).
Proof.
  intros H. unfold getitem_list.
  now rewrite (bind_ok _ _ _ _ _ (load_run _ _ _ H)).
Qed.

Lemma setitem_run w df T name s :
  heap w !! df = Some T ->
  setitem df name s w =
    match frame_setitem T name s with
    | Ok T' => (Ok tt, mkWorld (<[df := T']> (heap w)) (stdout w))
    | Raise e => (Raise e, w)
    end.
Proof.
  intros H. unfold setitem.
  rewrite (bind_ok _ _ _ _ _ (load_run _ _ _ H)).
  unfold mbind, ST_bind, lift, store.
  now destruct (frame_setitem T name s).
Qed.

(** ** Columns *)

Lemma lookup_assign_same name s cs :
  lookup_col name (assign_col name s cs) = Some s.
Proof.
  induction cs as [|[n s0] cs IH]; simpl.
  - now rewrite String.eqb_refl.
  - destruct (String.eqb n name) eqn:E; simpl; now rewrite E.
Qed.

Lemma lookup_assign_other name name' s cs :
  name <> name' ->
  lookup_col name' (assign_col name s cs) = lookup_col name' cs.
Proof.
  intros Hne. induction cs as [|[n s0] cs IH]; simpl.
  - destruct (String.eqb name name') eqn:E; [|reflexivity].
    apply String.eqb_eq in E. contradiction.
  - destruct (String.eqb n name) eqn:E; simpl.
    + apply String.eqb_eq in E. subst n.
      destruct (String.eqb name name') eqn:E'; [|reflexivity].
      apply String.eqb_eq in E'. contradiction.
    + now rewrite IH.
Qed.

Lemma frame_getitem_some T name s :
  lookup_col name (columns T) = Some s -> frame_getitem T name = Ok s.
Proof. intros H. unfold frame_getitem. now rewrite H. Qed.

Lemma frame_getitem_none T name :
  lookup_col name (columns T) = None -> frame_getitem T name = Raise (KeyError name).
Proof. intros H. unfold frame_getitem. now rewrite H. Qed.

(** ** Comparison and selection *)

Lemma numeric_cons c s : numeric (c :: s) = is_num c && numeric s.
Proof. reflexivity. Qed.

Lemma Series_gt_numeric s t :
  numeric s = true -> is_num t = true ->
  exists cond, Series_gt s t = Ok cond /\ length cond = length s.
Proof.
  intros Hs Ht. induction s as [|c s IH].
  - exists []. split; reflexivity.
  - rewrite numeric_cons in Hs. apply andb_prop in Hs as [Hc Hs].
    destruct (IH Hs) as (cond & E & L).
    destruct c as [|x|?]; [| |discriminate];
      destruct t as [|y|?]; try discriminate; simpl; rewrite E; simpl;
      eexists; (split; [reflexivity | simpl; now rewrite L]).
Qed.

Lemma np_where_length cond x y :
  length cond = length y -> length (np_where cond x y) = length y.
Proof.
  revert y. induction cond as [|b cond IH]; intros [|c y] H; simpl in *;
    try discriminate; try reflexivity.
  f_equal. apply IH. now injection H.
Qed.

(** What [np.where(s > t, m, s)] holds in each row. *)
Lemma np_where_gt_lookup s t m cond i c :
  Series_gt s t = Ok cond ->
  s !! i = Some c ->
  np_where cond m s !! i =
    Some (match c, t with
          | Num x, Num y => if Qle_bool x y then c else m
          | _, _ => c
          end).
Proof.
  revert cond i. induction s as [|c0 s IH]; intros cond i E Hi.
  - destruct i; discriminate.
  - simpl in E.
    destruct (cell_gt c0 t) as [b|] eqn:Eb; [|discriminate]. simpl in E.
    destruct (Series_gt s t) as [bs|] eqn:Ebs; [|discriminate]. simpl in E.
    injection E as <-.
    destruct i as [|i]; simpl in *.
    + injection Hi as <-.
      destruct c0 as [|x|?], t as [|y|?]; simpl in Eb; try discriminate;
        injection Eb as <-; try reflexivity.
      now destruct (Qle_bool x y).
    + now apply IH.
Qed.


Lemma Series_quantile_numeric s p :
  numeric s = true ->
  exists q, Series_quantile s p = Ok q /\ is_num q = true /\
            (nums s <> [] -> exists t, q = Num t).
Proof.
  intros H. unfold Series_quantile. rewrite H.
  destruct (nums s) eqn:E.
  - exists Null. repeat split; congruence.
  - eexists. repeat split; eauto.
Qed.

Lemma Series_median_numeric s :
  numeric s = true ->
  exists m, Series_median s = Ok m /\ is_num m = true /\
            (nums s <> [] -> exists t, m = Num t).
Proof.
  intros H. unfold Series_median. rewrite H.
  destruct (nums s) eqn:E.
  - exists Null. repeat split; congruence.
  - eexists. repeat split; eauto.
Qed.


(** ** Primitive steps *)

Lemma print_run line w :
  print line w = (Ok tt, mkWorld (heap w) (stdout w ++ [line])).
Proof. reflexivity. Qed.

Lemma lift_run {S A} (r : Result A) (w : S) : lift r w = (r, w).
Proof. reflexivity. Qed.

Lemma ret_run {S A} (a : A) (w : S) : (mret a : ST S A) w = (Ok a, w).
Proof. reflexivity. Qed.

Lemma getitem_ok w df T name s :
  heap w !! df = Some T -> lookup_col name (columns T) = Some s ->
  getitem df name w = (Ok s, w).
Proof.
  intros H Hs. rewrite (getitem_run _ _ _ _ H).
  now rewrite (frame_getitem_some _ _ _ Hs).
Qed.

Lemma getitem_absent w df T name :
  heap w !! df = Some T -> lookup_col name (columns T) = None ->
  getitem df name w = (Raise (KeyError name), w).
Proof.
  intros H Hs. rewrite (getitem_run _ _ _ _ H).
  now rewrite (frame_getitem_none _ _ Hs).
Qed.

Lemma setitem_ok w df T name s :
  heap w !! df = Some T -> length s = index_len T ->
  setitem df name s w =
    (Ok tt, mkWorld (<[df := mkDataFrame (index_len T)
                              (assign_col name s (columns T))]> (heap w))
                    (stdout w)).
Proof.
  intros H L. rewrite (setitem_run _ _ _ _ _ H). unfold frame_setitem.
  now rewrite L, Nat.eqb_refl.
Qed.

Ltac run_with tac := erewrite bind_ok by tac.
Ltac run_lift H := run_with ltac:(rewrite lift_run, H; reflexivity).
Ltac run_getitem := run_with ltac:(eapply getitem_ok; eassumption).

Lemma wf_lookup T name s :
  wf_frame T -> lookup_col name (columns T) = Some s -> length s = index_len T.
Proof.
  unfold wf_frame. generalize (index_len T) as n. intros n.
  induction (columns T) as [|[k s0] cs IH]; intros Hwf H; [discriminate|].
  apply Forall_cons in Hwf as [Hk Hcs]. simpl in H, Hk.
  destruct (String.eqb k name).
  - injection H as <-. exact Hk.
  - now apply IH.
Qed.

(** ** [fix_outlier]: what a call does *)

(** On a numeric column the guarded statement succeeds: the column is
    replaced by [np.where(s > q, m, s)], and that column is returned. *)
Lemma fix_outlier_numeric w df T column s :
  heap w !! df = Some T ->
  lookup_col column (columns T) = Some s ->
  numeric s = true ->
  length s = index_len T ->
  exists q m cond,
    Series_quantile s (95 # 100) = Ok q /\
    Series_median s = Ok m /\
    Series_gt s q = Ok cond /\
    fix_outlier df column w =
      (Ok (PySeries (np_where cond m s)),
       mkWorld (<[df := mkDataFrame (index_len T)
                          (assign_col column (np_where cond m s) (columns T))]>
                  (heap w))
               (stdout w ++ [outlier_line column])).
Proof.
  intros Hdf Hs Hnum Hlen.
  destruct (Series_quantile_numeric s (95 # 100) Hnum) as (q & Eq & Hq & _).
  destruct (Series_median_numeric s Hnum) as (m & Em & _).
  destruct (Series_gt_numeric s q Hnum Hq) as (cond & Ec & Lc).
  exists q, m, cond. repeat split; try assumption.
  unfold fix_outlier.
  set (w1 := mkWorld (heap w) (stdout w ++ [outlier_line column])).
  assert (H1 : heap w1 !! df = Some T) by exact Hdf.
  erewrite bind_ok.
  2:{ apply try_ok.
      run_with ltac:(apply print_run). fold (outlier_line column). fold w1.
      run_getitem. run_getitem. run_lift Eq. run_lift Ec.
      run_getitem. run_lift Em. run_getitem.
      eapply setitem_ok; [eassumption|].
      rewrite np_where_length; [assumption | now rewrite Lc]. }
  run_with ltac:(eapply getitem_ok; [apply lookup_insert_eq | apply lookup_assign_same]).
  reflexivity.
Qed.


(** On an absent column the guarded statement raises [KeyError], the
    handler prints it, and the [return] statement, which is outside the
    guard, raises it again. *)
Lemma fix_outlier_absent w df T column :
  heap w !! df = Some T ->
  lookup_col column (columns T) = None ->
  fix_outlier df column w =
    (Raise (KeyError column),
     mkWorld (heap w)
             ((stdout w ++ [outlier_line column]) ++ [[PError (KeyError column)]])).
Proof.
  intros Hdf Hs.
  unfold fix_outlier.
  set (w1 := mkWorld (heap w) (stdout w ++ [outlier_line column])).
  assert (H1 : heap w1 !! df = Some T) by exact Hdf.
  erewrite bind_ok.
  2:{ erewrite try_raise.
      2:{ run_with ltac:(apply print_run). fold (outlier_line column). fold w1.
          eapply bind_raise. eapply getitem_absent; eassumption. }
      apply print_run. }
  eapply bind_raise. eapply getitem_absent; [exact Hdf | exact Hs].
Qed.

Lemma np_where_numeric cond m s :
  is_num m = true -> numeric s = true -> numeric (np_where cond m s) = true.
Proof.
  intros Hm. revert s. induction cond as [|b cond IH]; intros [|c s] Hs;
    try reflexivity.
  rewrite numeric_cons in Hs. apply andb_prop in Hs as [Hc Hs].
  simpl. rewrite (IH _ Hs), andb_true_r. now destruct b.
Qed.






(** C9, as the claim states it, fails: the second application recomputes
    the percentile and the median from the clipped column, and clips again.
    [1, 2, 3, 100] becomes [1, 2, 3, 5/2], and that [1, 2, 9/4, 5/2]. *)
Lemma fix_outlier_second_application_changes :
  fst (fix_outlier 0%nat "X" Samples.world_X) =
    Ok (PySeries [Num 1; Num 2; Num 3; Num (5 # 2)]) /\
  fst (fix_outlier 0%nat "X" (snd (fix_outlier 0%nat "X" Samples.world_X))) =
    Ok (PySeries [Num 1; Num 2; Num (9 # 4); Num (5 # 2)]) /\
  ~ (3 == 9 # 4).
Proof.
  split; [vm_compute; reflexivity|].
  split; [vm_compute; reflexivity|].
  intros H. discriminate H.
Qed.

(** Clipping a column none of whose values is above the threshold changes
    nothing. *)
Lemma np_where_gt_unchanged s q m cond :
  Series_gt s q = Ok cond ->
  (forall i x t, s !! i = Some (Num x) -> q = Num t -> x <= t) ->
  np_where cond m s = s.
Proof.
  intros Ec Hle. unfold Series in *. apply list_eq. intros i.
  destruct (s !! i) as [c|] eqn:Hi.
  - etransitivity; [exact (np_where_gt_lookup _ _ m _ _ _ Ec Hi)|].
    destruct c as [|x|?]; try reflexivity.
    destruct q as [|t|?]; try reflexivity.
    specialize (Hle i x t Hi eq_refl). apply Qle_bool_iff in Hle.
    now rewrite Hle.
  - apply lookup_ge_None in Hi. apply lookup_ge_None.
    assert (L : length cond = length s).
    { clear -Ec. revert cond Ec. induction s as [|c s IH]; intros cond Ec.
      - injection Ec as <-. reflexivity.
      - simpl in Ec. destruct (cell_gt c q); [|discriminate]. simpl in Ec.
        destruct (Series_gt s q) eqn:E; [|discriminate]. simpl in Ec.
        injection Ec as <-. simpl. f_equal. now apply IH. }
    rewrite np_where_length by exact L. exact Hi.
Qed.

(** C9, amended.  A second application of [fix_outlier] leaves every value
    of the once-clipped column unchanged when none of them is strictly
    above the 95th percentile recomputed from that clipped column. *)
Theorem fix_outlier_twice_unchanged_below_p95 w df T column s s1 w1 q1 :
  heap w !! df = Some T ->
  lookup_col column (columns T) = Some s ->
  numeric s = true ->
  wf_frame T ->
  fix_outlier df column w = (Ok (PySeries s1), w1) ->
  Series_quantile s1 (95 # 100) = Ok q1 ->
  (forall i x t, s1 !! i = Some (Num x) -> q1 = Num t -> x <= t) ->
  exists w2 T2,
    fix_outlier df column w1 = (Ok (PySeries s1), w2) /\
    heap w2 !! df = Some T2 /\
    lookup_col column (columns T2) = Some s1.
Proof.
  intros Hdf Hs Hnum Hwf Hrun1 Eq1 Hbelow.
  pose proof (wf_lookup _ _ _ Hwf Hs) as Hlen.
  destruct (fix_outlier_numeric w df T column s Hdf Hs Hnum Hlen)
    as (q & m & cond & Eq & Em & Ec & Hrun).
  rewrite Hrun in Hrun1. injection Hrun1 as Hs1 Hw1.
  destruct (Series_median_numeric s Hnum) as (m' & Em' & Hm' & _).
  assert (m' = m) by congruence. subst m'.
  assert (Lc : length cond = length s).
  { destruct (Series_gt_numeric s q Hnum) as (cond' & Ec' & Lc).
    - destruct (Series_quantile_numeric s (95 # 100) Hnum) as (q' & Eq' & Hq' & _).
      congruence.
    - congruence. }
  assert (Hnum1 : numeric s1 = true).
  { rewrite <- Hs1. now apply np_where_numeric. }
  assert (Hlen1 : length s1 = index_len T).
  { rewrite <- Hs1, np_where_length; [exact Hlen | exact Lc]. }
  set (T1 := mkDataFrame (index_len T) (assign_col column s1 (columns T))).
  assert (Hdf1 : heap w1 !! df = Some T1).
  { rewrite <- Hw1. cbn [heap]. rewrite Hs1. apply lookup_insert_eq. }
  assert (Hcol1 : lookup_col column (columns T1) = Some s1)
    by apply lookup_assign_same.
  destruct (fix_outlier_numeric w1 df T1 column s1 Hdf1 Hcol1 Hnum1 Hlen1)
    as (q2 & m2 & cond2 & Eq2 & Em2 & Ec2 & Hrun2).
  assert (q2 = q1) by congruence. subst q2.
  rewrite (np_where_gt_unchanged s1 q1 m2 cond2 Ec2 Hbelow) in Hrun2.
  eexists _, _. split; [exact Hrun2|]. cbn [heap columns].
  split; [apply lookup_insert_eq | apply lookup_assign_same].
Qed.

Lemma fix_outlier_twice_unchanged_below_p95_witness :
  exists w2 T2,
    fix_outlier 0%nat "Y" (snd (fix_outlier 0%nat "Y" Samples.world_Y)) =
      (Ok (PySeries [Num 1; Num 1; Num 1; Num 1; Num 1]), w2) /\
    heap w2 !! 0%nat = Some T2 /\
    lookup_col "Y" (columns T2) = Some [Num 1; Num 1; Num 1; Num 1; Num 1].
Proof.
  apply (fix_outlier_twice_unchanged_below_p95 Samples.world_Y 0%nat
           Samples.table_Y "Y" Samples.Y
           [Num 1; Num 1; Num 1; Num 1; Num 1]
           (snd (fix_outlier 0%nat "Y" Samples.world_Y)) (Num 1)).
  - reflexivity.
  - reflexivity.
  - reflexivity.
  - repeat constructor.
  - vm_compute. reflexivity.
  - vm_compute. reflexivity.
  - intros i x t Hi Ht. injection Ht as <-.
    do 5 (destruct i as [|i]; [injection Hi as <-; discriminate|]).
    discriminate Hi.
Defined.

(** ** [fill_na] *)

(** The loop statement of [fill_na] never completes: [self.df] may be
    unset, the label [col] may be absent, the statistic may not exist, and
    when all of that succeeds the column rejects [axis=1].  Whatever
    happens, nothing has been written. *)
Lemma fill_na_step_raises self df stat col w :
  exists e, fill_na_step self df stat col w = (Raise e, w).
Proof.
  cbv beta iota delta [fill_na_step self_df getattr load lift fillna_inplace
    Series_fillna mbind ST_bind raise mret ST_ret].
  destruct (attr_df self) as [r|]; [|eauto].
  destruct (heap w !! r); [|eauto].
  destruct (frame_getattr _ _); [|eauto].
  destruct (heap w !! df); [|eauto].
  destruct (frame_getattr _ _); [|eauto].
  destruct (stat _); [|eauto].
  simpl. eauto.
Qed.

Lemma fill_na_branch_nonempty self df stat c cols w :
  exists e, fill_na_branch self df stat (c :: cols) w = (Raise e, w).
Proof.
  destruct (fill_na_step_raises self df stat c w) as (e & He).
  exists e. unfold fill_na_branch. simpl for_each.
  eapply bind_raise. eapply bind_raise. exact He.
Qed.

Lemma fill_na_branch_heap self df stat cols w :
  heap (snd (fill_na_branch self df stat cols w)) = heap w.
Proof.
  destruct cols as [|c cols].
  - unfold fill_na_branch, self_df. simpl for_each.
    destruct (attr_df self); reflexivity.
  - destruct (fill_na_branch_nonempty self df stat c cols w) as (e & ->).
    reflexivity.
Qed.

Lemma fill_na_unfold self type df cols :
  fill_na self type df cols =
  try_except
    (if String.eqb type "mean" then fill_na_branch self df stat_mean cols
     else if String.eqb type "median" then fill_na_branch self df stat_median cols
     else if String.eqb type "mode" then fill_na_branch self df stat_mode cols
     else print [PText "type must be either mean, median or mode"];; mret PyNone)
    fill_na_handler.
Proof. reflexivity. Qed.

(** With one of the three kinds and a column to fill, [fill_na] fills
    nothing: the first turn of the loop raises, the handler prints the
    exception, and the method returns [None]. *)
Lemma fill_na_never_fills self type df c cols w :
  type = "mean" \/ type = "median" \/ type = "mode" ->
  exists e,
    fill_na self type df (c :: cols) w =
      (Ok PyNone, mkWorld (heap w) (stdout w ++ [[PError e]])).
Proof.
  intros Hk. rewrite fill_na_unfold.
  assert (exists stat,
    (if String.eqb type "mean" then fill_na_branch self df stat_mean (c :: cols)
     else if String.eqb type "median" then fill_na_branch self df stat_median (c :: cols)
     else if String.eqb type "mode" then fill_na_branch self df stat_mode (c :: cols)
     else print [PText "type must be either mean, median or mode"];; mret PyNone)
    = fill_na_branch self df stat (c :: cols)) as (stat & ->).
  { destruct Hk as [-> | [-> | ->]]; eexists; reflexivity. }
  destruct (fill_na_branch_nonempty self df stat c cols w) as (e & He).
  exists e. erewrite try_raise by exact He. reflexivity.
Qed.

(** Any other kind: the usage message, and nothing else. *)
Lemma fill_na_other_kind self type df cols w :
  type <> "mean" -> type <> "median" -> type <> "mode" ->
  fill_na self type df cols w =
    (Ok PyNone,
     mkWorld (heap w)
             (stdout w ++ [[PText "type must be either mean, median or mode"]])).
Proof.
  intros H1 H2 H3. rewrite fill_na_unfold.
  apply String.eqb_neq in H1, H2, H3. rewrite H1, H2, H3. reflexivity.
Qed.

Lemma try_handler_heap (body : M PyVal) w :
  heap (snd (body w)) = heap w ->
  heap (snd (try_except body fill_na_handler w)) = heap w.
Proof.
  unfold try_except. destruct (body w) as [[a|e] w']; simpl; intros H; exact H.
Qed.

Lemma fill_na_heap self type df cols w :
  heap (snd (fill_na self type df cols w)) = heap w.
Proof.
  rewrite fill_na_unfold. apply try_handler_heap.
  destruct (String.eqb type "mean"); [apply fill_na_branch_heap|].
  destruct (String.eqb type "median"); [apply fill_na_branch_heap|].
  destruct (String.eqb type "mode"); [apply fill_na_branch_heap|].
  reflexivity.
Qed.

(** C1.  [fill_na("mean", df, ["A"])] on the table whose column [A] is
    [1, null, 3], held both as [self.df] and as [df]: the loop reads the
    attribute [col], which the table does not have; the exception is
    printed, [None] is returned, and the null of [A] is still there. *)
Theorem fill_na_mean_fills_nothing :
  fill_na (mkSelf (Some 0%nat)) "mean" 0%nat ["A"] Samples.world_AB =
    (Ok PyNone,
     mkWorld (heap Samples.world_AB) [[PError (AttributeError "col")]]) /\
  heap Samples.world_AB !! 0%nat = Some Samples.table_AB /\
  lookup_col "A" (columns Samples.table_AB) = Some [Num 1; Null; Num 3].
Proof. repeat split. Qed.

(** C10.  [fill_na] leaves the table passed as [df] as it was, whatever
    the kind, the columns and the instance, and whether or not [df] is the
    table the instance holds: the call writes to no table at all. *)
Theorem fill_na_preserves_argument_table self type df cols w :
  heap (snd (fill_na self type df cols w)) !! df = heap w !! df /\
  heap (snd (fill_na self type df cols w)) = heap w.
Proof.
  rewrite fill_na_heap. split; reflexivity.
Qed.

(** ** Filling the nulls of listed columns *)

Lemma fill_cell_idem v c : fill_cell v (fill_cell v c) = fill_cell v c.
Proof. destruct c; simpl; try reflexivity. destruct v; reflexivity. Qed.

Lemma map_fill_idem v (s : Series) :
  map (fill_cell v) (map (fill_cell v) s) = map (fill_cell v) s.
Proof. rewrite map_map. apply map_ext. intros c. apply fill_cell_idem. Qed.

Lemma assign_col_names name s cs s0 :
  lookup_col name cs = Some s0 ->
  map fst (assign_col name s cs) = map fst cs.
Proof.
  induction cs as [|[n s1] cs IH]; simpl; [discriminate|].
  destruct (String.eqb n name); simpl; [reflexivity|].
  intros H. now rewrite IH.
Qed.

Section FillColumnsFacts.

Variable orig : string -> Series.
Variable value : string -> Cell.

Lemma partly_filled_assign k cs :
  partly_filled orig value cs ->
  partly_filled orig value (assign_col k (filled orig value k) cs).
Proof.
  intros H k' s'. destruct (String.eqb_spec k k') as [<-|Hne].
  - rewrite lookup_assign_same. intros [= <-]. now right.
  - rewrite lookup_assign_other by exact Hne. apply H.
Qed.

Lemma fill_partly k cs s :
  partly_filled orig value cs -> lookup_col k cs = Some s ->
  map (fill_cell (value k)) s = filled orig value k.
Proof.
  intros H Hs. destruct (H _ _ Hs) as [-> | ->]; [reflexivity|].
  apply map_fill_idem.
Qed.

Lemma fillna_items_invariant items cs :
  partly_filled orig value cs ->
  partly_filled orig value (fillna_items (map (fun k => (k, value k)) items) cs) /\
  map fst (fillna_items (map (fun k => (k, value k)) items) cs) = map fst cs /\
  (forall k, lookup_col k cs = Some (filled orig value k) ->
     lookup_col k (fillna_items (map (fun k => (k, value k)) items) cs)
       = Some (filled orig value k)) /\
  (forall k, In k items -> lookup_col k cs <> None ->
     lookup_col k (fillna_items (map (fun k => (k, value k)) items) cs)
       = Some (filled orig value k)).
Proof.
  revert cs. induction items as [|k items IH]; intros cs Hcs; simpl.
  - split; [exact Hcs|]. split; [reflexivity|]. split; [auto|]. intros k [].
  - destruct (lookup_col k cs) as [s|] eqn:Hk.
    + rewrite (fill_partly _ _ _ Hcs Hk).
      destruct (IH _ (partly_filled_assign k cs Hcs)) as (I1 & I2 & I3 & I4).
      split; [exact I1|]. split.
      { rewrite I2. eapply assign_col_names; eassumption. }
      split.
      * intros k' Hk'. apply I3.
        destruct (String.eqb_spec k k') as [<-|Hne].
        -- apply lookup_assign_same.
        -- now rewrite lookup_assign_other.
      * intros k' [<-|Hin] Hk'.
        -- apply I3. apply lookup_assign_same.
        -- apply I4; [exact Hin|].
           destruct (String.eqb_spec k k') as [<-|Hne].
           ++ now rewrite lookup_assign_same.
           ++ now rewrite lookup_assign_other.
    + destruct (IH _ Hcs) as (I1 & I2 & I3 & I4).
      split; [exact I1|]. split; [exact I2|]. split; [exact I3|].
      intros k' [<-|Hin] Hk'; [congruence|]. now apply I4.
Qed.

Lemma assign_filled_lookup cols cs c :
  In c cols \/ lookup_col c cs = Some (filled orig value c) ->
  lookup_col c (assign_filled orig value cols cs) = Some (filled orig value c).
Proof.
  revert cs. induction cols as [|k cols IH]; intros cs H; simpl.
  - destruct H as [[]|H]. exact H.
  - apply IH. destruct (String.eqb_spec k c) as [<-|Hne].
    + right. apply lookup_assign_same.
    + destruct H as [[->|H]|H]; [contradiction | now left |].
      right. now rewrite lookup_assign_other.
Qed.

End FillColumnsFacts.

Lemma select_cols_ok cs cols :
  (forall c, In c cols -> lookup_col c cs <> None) ->
  select_cols cols cs = Ok (map (fun c => (c, col_or_nil cs c)) cols).
Proof.
  induction cols as [|c cols IH]; intros H; simpl; [reflexivity|].
  unfold col_or_nil at 1.
  destruct (lookup_col c cs) eqn:E; [|now destruct (H c (or_introl eq_refl))].
  rewrite IH by (intros; apply H; now right). reflexivity.
Qed.

Lemma frame_stat_ok stat (orig : string -> Series) cols :
  (forall c, In c cols -> exists v, stat (orig c) = Ok v) ->
  frame_stat stat (map (fun c => (c, orig c)) cols) =
  map (fun c => (c, stat_or_null stat (orig c))) cols.
Proof.
  induction cols as [|c cols IH]; intros H; simpl; [reflexivity|].
  unfold stat_or_null at 1.
  destruct (H c (or_introl eq_refl)) as (v & ->).
  rewrite IH by (intros; apply H; now right). reflexivity.
Qed.

Lemma lookup_col_map (orig : string -> Series) cols k :
  lookup_col k (map (fun c => (c, orig c)) cols) =
  if existsb (String.eqb k) cols then Some (orig k) else None.
Proof.
  induction cols as [|c cols IH]; simpl; [reflexivity|].
  rewrite (String.eqb_sym k c).
  destruct (String.eqb_spec c k) as [->|Hne]; simpl; [reflexivity | exact IH].
Qed.

Lemma existsb_eqb_In k cols : In k cols -> existsb (String.eqb k) cols = true.
Proof.
  intros H. apply existsb_exists. exists k. split; [exact H|].
  apply String.eqb_refl.
Qed.

Lemma world_eta w : mkWorld (heap w) (stdout w) = w.
Proof. now destruct w. Qed.

Lemma for_each_setitem_filled df n V orig value cols w cur :
  heap w !! df = Some (mkDataFrame n cur) ->
  (forall c, In c cols -> lookup_col c (columns V) = Some (filled orig value c)) ->
  (forall c, In c cols -> length (filled orig value c) = n) ->
  for_each (combine cols cols)
    (fun kk => s ← lift (frame_getitem V (snd kk)); setitem df (fst kk) s) w =
  (Ok tt,
   mkWorld (<[df := mkDataFrame n (assign_filled orig value cols cur)]> (heap w))
           (stdout w)).
Proof.
  revert w cur. induction cols as [|k cols IH]; intros w cur Hdf HV Hlen.
  - simpl. rewrite insert_id by exact Hdf. now rewrite world_eta.
  - simpl combine. simpl for_each.
    erewrite bind_ok.
    2:{ pose proof (frame_getitem_some _ _ _ (HV k (or_introl eq_refl))) as Hk.
        run_lift Hk.
        eapply (setitem_ok _ _ (mkDataFrame n cur)); [exact Hdf|].
        apply Hlen. now left. }
    cbn [index_len columns].
    rewrite IH with (cur := assign_col k (filled orig value k) cur).
    + cbn [heap stdout]. now rewrite insert_insert_eq.
    + cbn [heap]. apply lookup_insert_eq.
    + intros; apply HV; now right.
    + intros; apply Hlen; now right.
Qed.

Lemma getitem_list_ok w df T names V :
  heap w !! df = Some T -> frame_getitem_list T names = Ok V ->
  getitem_list df names w = (Ok V, w).
Proof. intros H HV. rewrite (getitem_list_run _ _ _ _ H). now rewrite HV. Qed.

Lemma fill_with_stat_run msg stat w df T cols :
  heap w !! df = Some T ->
  wf_frame T ->
  (forall c, In c cols -> exists s v,
     lookup_col c (columns T) = Some s /\ stat s = Ok v) ->
  fill_with_stat msg stat df cols w =
    (Ok (PyFrame df),
     mkWorld (<[df := mkDataFrame (index_len T)
                        (assign_filled (col_or_nil (columns T))
                           (fun c => stat_or_null stat (col_or_nil (columns T) c))
                           cols (columns T))]> (heap w))
             (stdout w ++ [[PText msg; PNames cols]])).
Proof.
  intros Hdf Hwf Hcols.
  set (orig := col_or_nil (columns T)).
  set (value := fun c => stat_or_null stat (orig c)).
  set (sel := map (fun c => (c, orig c)) cols).
  assert (Hsel : frame_getitem_list T cols = Ok (mkDataFrame (index_len T) sel)).
  { unfold frame_getitem_list. rewrite select_cols_ok; [reflexivity|].
    intros c Hc. destruct (Hcols c Hc) as (s & v & -> & _). discriminate. }
  assert (Hstat : frame_stat stat sel = map (fun c => (c, value c)) cols).
  { apply frame_stat_ok. intros c Hc. destruct (Hcols c Hc) as (s & v & Hs & Hv).
    exists v. unfold orig, col_or_nil. now rewrite Hs. }
  assert (Hpart : partly_filled orig value sel).
  { intros k s. unfold sel. rewrite lookup_col_map.
    destruct (existsb _ _); [|discriminate]. intros [= <-]. now left. }
  destruct (fillna_items_invariant orig value cols sel Hpart)
    as (_ & Hnames & _ & Hfilled).
  set (w1 := mkWorld (heap w) (stdout w ++ [[PText msg; PNames cols]])).
  assert (H1 : heap w1 !! df = Some T) by exact Hdf.
  assert (H1' : heap w1 !! df = Some (mkDataFrame (index_len T) (columns T))).
  { rewrite H1. now destruct T. }
  unfold fill_with_stat.
  erewrite bind_ok.
  2:{ apply try_ok.
      run_with ltac:(apply print_run). fold w1.
      run_with ltac:(eapply getitem_list_ok; [exact H1 | exact Hsel]).
      run_with ltac:(eapply getitem_list_ok; [exact H1 | exact Hsel]).
      cbn [columns]. rewrite Hstat.
      unfold setitem_list, frame_fillna. cbn [columns index_len].
      replace (map fst (fillna_items (map (fun c => (c, value c)) cols) sel))
        with cols.
      2:{ rewrite Hnames. unfold sel. rewrite map_map. simpl.
          now rewrite map_id. }
      replace (length (fillna_items (map (fun c => (c, value c)) cols) sel))
        with (length cols).
      2:{ rewrite <- (length_map fst (fillna_items _ _)), Hnames.
          unfold sel. now rewrite !length_map. }
      rewrite Nat.eqb_refl.
      apply (for_each_setitem_filled df (index_len T) _ orig value cols w1
               (columns T) H1').
      - intros c Hc. cbn [columns]. apply Hfilled; [exact Hc|].
        unfold sel. rewrite lookup_col_map, existsb_eqb_In by exact Hc. discriminate.
      - intros c Hc. unfold filled. rewrite length_map.
        destruct (Hcols c Hc) as (s & v & Hs & _).
        unfold orig, col_or_nil. rewrite Hs. eapply wf_lookup; eassumption. }
  reflexivity.
Qed.







(** ** Counting nulls, by column and by row *)

Lemma sum_nat_add (f g : nat -> nat) l :
  sum_nat (map (fun i => (f i + g i)%nat) l) =
  (sum_nat (map f l) + sum_nat (map g l))%nat.
Proof. induction l as [|i l IH]; simpl; [reflexivity|]. rewrite IH. lia. Qed.

Lemma sum_nat_zero (l : list nat) : sum_nat (map (fun _ => 0%nat) l) = 0%nat.
Proof. induction l; simpl; auto. Qed.

Lemma null_count_by_row (s : Series) :
  null_count s =
  sum_nat (map (fun i => if isnull (nth i s (Num 0)) then 1%nat else 0%nat)
               (seq 0 (length s))).
Proof.
  induction s as [|c s IH]; [reflexivity|].
  cbn [length seq map sum_nat fold_right nth null_count].
  rewrite <- seq_shift, map_map. cbn [nth]. unfold sum_nat in IH.
  now rewrite <- IH.
Qed.

Lemma counts_sum_by_row n cs :
  Forall (fun c => length (snd c) = n) cs ->
  counts_sum (map (fun c => (fst c, null_count (snd c))) cs) = null_cells_of n cs.
Proof.
  unfold null_cells_of. induction cs as [|[k s] cs IH]; intros Hwf.
  - simpl. now rewrite sum_nat_zero.
  - apply Forall_cons in Hwf as [Hk Hwf]. simpl in Hk.
    unfold counts_sum in *. cbn [map fold_right snd fst row null_count].
    rewrite (IH Hwf).
    rewrite (sum_nat_add
               (fun i => if isnull (nth i s (Num 0)) then 1%nat else 0%nat)
               (fun i => null_count (row cs i))).
    rewrite <- Hk at 2. now rewrite <- null_count_by_row.
Qed.

(** ** Rounding *)

Lemma round_half_even_comp q q' : q == q' -> round_half_even q = round_half_even q'.
Proof.
  intros H. unfold round_half_even. rewrite (Qfloor_comp _ _ H).
  assert (E : q - inject_Z (Qfloor q') == q' - inject_Z (Qfloor q'))
    by now rewrite H.
  now rewrite (Qcompare_comp _ _ E _ _ (Qeq_refl (1 # 2))).
Qed.

Lemma round_to_comp q q' n : q == q' -> round_to q n = round_to q' n.
Proof.
  intros H. unfold round_to.
  rewrite (round_half_even_comp (q * inject_Z (pow10 n)) (q' * inject_Z (pow10 n)));
    [reflexivity | now rewrite H].
Qed.

Lemma round_half_even_close q :
  - (1 # 2) <= inject_Z (round_half_even q) - q <= 1 # 2.
Proof.
  unfold round_half_even.
  pose proof (Qfloor_le q) as Hlo. pose proof (Qlt_floor q) as Hhi.
  rewrite inject_Z_plus in Hhi. change (inject_Z 1) with 1 in Hhi.
  destruct (Qcompare_spec (q - inject_Z (Qfloor q)) (1 # 2)) as [E|E|E].
  - destruct (Z.even (Qfloor q)).
    + lra.
    + rewrite inject_Z_plus. change (inject_Z 1) with 1. lra.
  - lra.
  - rewrite inject_Z_plus. change (inject_Z 1) with 1. lra.
Qed.

Lemma round_to_10_scaled q :
  round_to q 10 * 10000000000 == inject_Z (round_half_even (q * 10000000000)).
Proof.
  unfold round_to. rewrite Qred_correct.
  change (inject_Z (pow10 10)) with 10000000000. field.
Qed.



(** ** [percent_missing] *)



(** The scenario of the specification: 2 nulls among 10 x 3 cells are
    reported as 6.6666666667 percent. *)
Example percent_missing_10x3 :
  stdout (snd (percent_missing 0%nat Samples.world_10x3)) =
    [percent_line (66666666667 # 10000000000)].
Proof. vm_compute. reflexivity. Qed.

(** ** The elbow sweep *)

Section Sweep.
Variables (F Centers : Type).
Variable KMeans_fit : Z -> DataFrame -> Result (KModel F Centers).
Variable cdist : DataFrame -> Centers -> Result (list (list F)).
Variable np_min_rows : list (list F) -> Result (list F).
Variable py_sum : list F -> F.
Variable div_by : F -> nat -> Result F.

#[local] Abbreviation entry :=
  (sweep_entry KMeans_fit cdist np_min_rows py_sum div_by).
#[local] Abbreviation prefix :=
  (sweep_prefix KMeans_fit cdist np_min_rows py_sum div_by).
#[local] Abbreviation step :=
  (sweep_step KMeans_fit cdist np_min_rows py_sum div_by).
#[local] Abbreviation sweep :=
  (choose_k_means KMeans_fit cdist np_min_rows py_sum div_by).

(** One turn: both lists grow by the entry of [k], or the turn raises and
    leaves them as they were. *)
Lemma sweep_step_run w df T k ds ins :
  heap w !! df = Some T ->
  step df k (w, mkLocals (Some ds) (Some ins)) =
    match entry T k with
    | Ok di => (Ok tt, (w, mkLocals (Some (ds ++ [fst di])) (Some (ins ++ [snd di]))))
    | Raise e => (Raise e, (w, mkLocals (Some ds) (Some ins)))
    end.
Proof.
  intros Hdf. unfold sweep_step, sweep_entry.
  assert (Hload : forall l : Locals F, in_world (load df) (w, l) = (Ok T, (w, l))).
  { intros l. unfold in_world. cbn [fst snd]. now rewrite (load_run _ _ _ Hdf). }
  run_with ltac:(apply Hload).
  destruct (KMeans_fit k T) as [km|e]; [|reflexivity].
  run_with ltac:(apply lift_run).
  run_with ltac:(reflexivity).
  run_with ltac:(apply Hload).
  cbn [rbind].
  destruct (cdist T (cluster_centers_ km)) as [m|e]; [|reflexivity].
  run_with ltac:(apply lift_run).
  cbn [rbind].
  destruct (np_min_rows m) as [mins|e]; [|reflexivity].
  run_with ltac:(apply lift_run).
  run_with ltac:(apply Hload).
  cbn [rbind].
  destruct (div_by (py_sum mins) (index_len T)) as [d|e]; [|reflexivity].
  run_with ltac:(apply lift_run).
  reflexivity.
Qed.

Lemma sweep_loop_run w df T K ds ins :
  heap w !! df = Some T ->
  for_each K (step df) (w, mkLocals (Some ds) (Some ins)) =
    (outcome (snd (prefix T K)),
     (w, mkLocals (Some (ds ++ map fst (fst (prefix T K))))
                  (Some (ins ++ map snd (fst (prefix T K)))))).
Proof.
  intros Hdf. revert ds ins. induction K as [|k K IH]; intros ds ins.
  - simpl. now rewrite !app_nil_r.
  - simpl for_each. unfold mbind, ST_bind. rewrite (sweep_step_run _ _ _ _ _ _ Hdf).
    simpl sweep_prefix.
    destruct (entry T k) as [[d i]|e].
    + rewrite IH. cbn [fst snd map]. now rewrite <- !app_assoc.
    + simpl. now rewrite !app_nil_r.
Qed.

(** The whole method: it returns the entries of the candidates before the
    first that raises, and never raises itself. *)
Lemma choose_k_means_run w df T num :
  heap w !! df = Some T ->
  sweep df num w =
    (Ok (map fst (fst (prefix T (py_range 1 num))),
         map snd (fst (prefix T (py_range 1 num)))),
     after_sweep w (snd (prefix T (py_range 1 num)))).
Proof.
  intros Hdf. unfold choose_k_means, choose_k_means_body.
  set (K := py_range 1 num).
  assert (Hbody :
    (set_distortions [];; set_inertias [];; for_each K (step df))
      (w, mkLocals None None) =
    (outcome (snd (prefix T K)),
     (w, mkLocals (Some (map fst (fst (prefix T K))))
                  (Some (map snd (fst (prefix T K))))))).
  { unfold mbind, ST_bind, set_distortions, set_inertias.
    cbn [fst snd distortions inertias].
    now rewrite (sweep_loop_run w df T K [] [] Hdf). }
  destruct (snd (prefix T K)) as [e|] eqn:Eerr; cbn [outcome after_sweep] in *.
  - erewrite bind_ok.
    2:{ erewrite try_raise by exact Hbody. reflexivity. }
    reflexivity.
  - erewrite bind_ok.
    2:{ apply try_ok. exact Hbody. }
    reflexivity.
Qed.

(** When every candidate of [K] has an entry, the prefix is all of them. *)
Lemma prefix_all_ok T K :
  (forall k, In k K -> exists di, entry T k = Ok di) ->
  snd (prefix T K) = None /\
  length (fst (prefix T K)) = length K /\
  forall j k, K !! j = Some k ->
    exists di, entry T k = Ok di /\ fst (prefix T K) !! j = Some di.
Proof.
  induction K as [|k K IH]; intros H.
  - repeat split. intros j k Hj. destruct j; discriminate.
  - destruct (H k (or_introl eq_refl)) as (di & Hdi).
    destruct IH as (I1 & I2 & I3); [intros; apply H; now right|].
    simpl sweep_prefix. rewrite Hdi. cbn [fst snd length].
    split; [exact I1|]. split; [now rewrite I2|].
    intros [|j] k' Hj; simpl in Hj.
    + injection Hj as <-. exists di. split; [exact Hdi | reflexivity].
    + apply I3. exact Hj.
Qed.

(** When the candidates of [K1] have an entry and the next one raises, the
    prefix is the entries of [K1] and the exception is that one. *)
Lemma prefix_until_raise T K1 k0 K2 e :
  (forall k, In k K1 -> exists di, entry T k = Ok di) ->
  entry T k0 = Raise e ->
  snd (prefix T (K1 ++ k0 :: K2)) = Some e /\
  fst (prefix T (K1 ++ k0 :: K2)) = fst (prefix T K1).
Proof.
  induction K1 as [|k K1 IH]; intros H He.
  - simpl. now rewrite He.
  - destruct (H k (or_introl eq_refl)) as (di & Hdi).
    destruct IH as (I1 & I2); [intros; apply H; now right | exact He |].
    simpl. rewrite Hdi. cbn [fst snd]. now rewrite I1, I2.
Qed.


Lemma lookup_map_option {A B} (f : A -> B) (l : list A) j :
  map f l !! j = option_map f (l !! j).
Proof.
  revert j. induction l as [|a l IH]; intros [|j]; simpl; try reflexivity.
  apply IH.
Qed.

Lemma In_range k n : In k (seqZ 1 (n - 1)) -> (1 <= k < n)%Z.
Proof.
  intros H. apply list_elem_of_In, list_elem_of_lookup in H as (j & Hj).
  apply lookup_seqZ in Hj. lia.
Qed.

(** The entries of the candidates [1 .. n-1], when each has one. *)
Lemma range_entries T n :
  (forall k, (1 <= k < n)%Z -> exists di, entry T k = Ok di) ->
  snd (prefix T (seqZ 1 (n - 1))) = None /\
  length (fst (prefix T (seqZ 1 (n - 1)))) = Z.to_nat (n - 1) /\
  forall k, (1 <= k < n)%Z ->
    exists d i,
      entry T k = Ok (d, i) /\
      map fst (fst (prefix T (seqZ 1 (n - 1)))) !! Z.to_nat (k - 1) = Some d /\
      map snd (fst (prefix T (seqZ 1 (n - 1)))) !! Z.to_nat (k - 1) = Some i.
Proof.
  intros H.
  destruct (prefix_all_ok T (seqZ 1 (n - 1))) as (I1 & I2 & I3).
  { intros k Hk. apply H. now apply In_range. }
  split; [exact I1|]. split; [now rewrite I2, length_seqZ|].
  intros k Hk.
  destruct (I3 (Z.to_nat (k - 1)) k) as ([d i] & Hdi & Hj).
  { rewrite lookup_seqZ_lt by lia. f_equal. lia. }
  exists d, i. split; [exact Hdi|].
  rewrite !lookup_map_option, Hj. split; reflexivity.
Qed.

(** C7.  When every candidate [k] of [1 <= k < num] is fitted and measured
    without an exception, [choose_k_means] returns two lists of length
    [num - 1] whose entry at position [k - 1] is the distortion, and the
    inertia, of candidate [k], and prints nothing; for [num = 1] both lists
    are empty. *)
Theorem choose_k_means_full_sweep w df T num :
  heap w !! df = Some T ->
  (1 <= num)%Z ->
  (forall k, (1 <= k < num)%Z ->
     exists di, sweep_entry KMeans_fit cdist np_min_rows py_sum div_by T k = Ok di) ->
  exists ds ins,
    choose_k_means KMeans_fit cdist np_min_rows py_sum div_by df num w =
      (Ok (ds, ins), w) /\
    length ds = Z.to_nat (num - 1) /\
    length ins = Z.to_nat (num - 1) /\
    (forall k, (1 <= k < num)%Z ->
       exists d i,
         sweep_entry KMeans_fit cdist np_min_rows py_sum div_by T k = Ok (d, i) /\
         ds !! Z.to_nat (k - 1) = Some d /\
         ins !! Z.to_nat (k - 1) = Some i) /\
    (num = 1%Z -> ds = [] /\ ins = []).
Proof.
  intros Hdf Hnum Hok.
  destruct (range_entries T num Hok) as (I1 & I2 & I3).
  eexists _, _. split.
  { rewrite (choose_k_means_run w df T num Hdf). unfold py_range.
    rewrite I1. reflexivity. }
  split; [now rewrite length_map|]. split; [now rewrite length_map|].
  split; [exact I3|].
  intros ->. change (1 - 1)%Z with 0%Z in *.
  split; apply nil_length_inv; now rewrite length_map, I2.
Qed.

(** C8.  When the candidates before [k0] are fitted and measured and
    candidate [k0] raises, [choose_k_means] prints that exception and
    returns, without raising, the two lists built so far: both of length
    [k0 - 1], holding the entries of the candidates before [k0]. *)
Theorem choose_k_means_partial_sweep w df T num k0 e :
  heap w !! df = Some T ->
  (1 <= k0 < num)%Z ->
  (forall k, (1 <= k < k0)%Z ->
     exists di, sweep_entry KMeans_fit cdist np_min_rows py_sum div_by T k = Ok di) ->
  sweep_entry KMeans_fit cdist np_min_rows py_sum div_by T k0 = Raise e ->
  exists ds ins,
    choose_k_means KMeans_fit cdist np_min_rows py_sum div_by df num w =
      (Ok (ds, ins), mkWorld (heap w) (stdout w ++ [[PError e]])) /\
    length ds = Z.to_nat (k0 - 1) /\
    length ins = Z.to_nat (k0 - 1) /\
    (forall k, (1 <= k < k0)%Z ->
       exists d i,
         sweep_entry KMeans_fit cdist np_min_rows py_sum div_by T k = Ok (d, i) /\
         ds !! Z.to_nat (k - 1) = Some d /\
         ins !! Z.to_nat (k - 1) = Some i).
Proof.
  intros Hdf Hk0 Hok He.
  destruct (range_entries T k0 Hok) as (I1 & I2 & I3).
  assert (Hsplit : py_range 1 num =
            seqZ 1 (k0 - 1) ++ k0 :: seqZ (Z.succ k0) (Z.pred (num - k0))).
  { unfold py_range. replace (num - 1)%Z with ((k0 - 1) + (num - k0))%Z by lia.
    rewrite seqZ_app by lia. f_equal.
    replace (1 + (k0 - 1))%Z with k0 by lia. apply seqZ_cons. lia. }
  destruct (prefix_until_raise T (seqZ 1 (k0 - 1)) k0
              (seqZ (Z.succ k0) (Z.pred (num - k0))) e) as (P1 & P2).
  { intros k Hk. apply Hok. now apply In_range. }
  { exact He. }
  eexists _, _. split.
  { rewrite (choose_k_means_run w df T num Hdf). rewrite Hsplit, P1, P2.
    reflexivity. }
  split; [now rewrite length_map|]. split; [now rewrite length_map|].
  exact I3.
Qed.

End Sweep.

Lemma choose_k_means_full_sweep_witness :
  exists ds ins,
    choose_k_means Samples.toy_fit Samples.toy_cdist Samples.toy_min_rows sumQ
      Samples.toy_div 0%nat 3 Samples.world_2 = (Ok (ds, ins), Samples.world_2) /\
    length ds = Z.to_nat (3 - 1) /\
    length ins = Z.to_nat (3 - 1) /\
    (forall k, (1 <= k < 3)%Z ->
       exists d i,
         sweep_entry Samples.toy_fit Samples.toy_cdist Samples.toy_min_rows sumQ
           Samples.toy_div Samples.table_2 k = Ok (d, i) /\
         ds !! Z.to_nat (k - 1) = Some d /\
         ins !! Z.to_nat (k - 1) = Some i) /\
    (3%Z = 1%Z -> ds = [] /\ ins = []).
Proof.
  apply (choose_k_means_full_sweep Q unit Samples.toy_fit Samples.toy_cdist
           Samples.toy_min_rows sumQ Samples.toy_div Samples.world_2 0%nat
           Samples.table_2 3).
  - reflexivity.
  - lia.
  - intros k Hk. assert (k = 1 \/ k = 2)%Z as [-> | ->] by lia;
      eexists; reflexivity.
Defined.

Lemma choose_k_means_partial_sweep_witness :
  exists ds ins,
    choose_k_means Samples.toy_fit Samples.toy_cdist Samples.toy_min_rows sumQ
      Samples.toy_div 0%nat 5 Samples.world_2 =
      (Ok (ds, ins),
       mkWorld (heap Samples.world_2)
         (stdout Samples.world_2 ++
          [[PError (ValueError "n_samples should be >= n_clusters")]])) /\
    length ds = Z.to_nat (3 - 1) /\
    length ins = Z.to_nat (3 - 1) /\
    (forall k, (1 <= k < 3)%Z ->
       exists d i,
         sweep_entry Samples.toy_fit Samples.toy_cdist Samples.toy_min_rows sumQ
           Samples.toy_div Samples.table_2 k = Ok (d, i) /\
         ds !! Z.to_nat (k - 1) = Some d /\
         ins !! Z.to_nat (k - 1) = Some i).
Proof.
  apply (choose_k_means_partial_sweep Q unit Samples.toy_fit Samples.toy_cdist
           Samples.toy_min_rows sumQ Samples.toy_div Samples.world_2 0%nat
           Samples.table_2 5 3).
  - reflexivity.
  - lia.
  - intros k Hk. assert (k = 1 \/ k = 2)%Z as [-> | ->] by lia;
      eexists; reflexivity.
  - reflexivity.
Defined.

(** ** Which methods can raise *)

(** A guard whose handler prints swallows every exception of its body. *)
Lemma guard_swallows (body : M unit) w :
  exists w', try_except body (fun e => print [PError e]) w = (Ok tt, w').
Proof.
  unfold try_except. destruct (body w) as [[[]|e] w']; eauto.
Qed.

Lemma percent_missing_never_raises df w :
  exists w', percent_missing df w = (Ok PyNone, w').
Proof.
  unfold percent_missing.
  destruct (guard_swallows
    (T ← load df;
     let totalCells := np_product_shape T in
     T0 ← load df;
     let missingCount := frame_isnull_sum T0 in
     let totalMissing := counts_sum missingCount in
     print [PText "The dataset contains";
            PValue (py_round (cell_mul (np_true_divide totalMissing totalCells)
                                       100) 10);
            PText "%"; PText "missing values."]) w) as (w' & H).
  exists w'. erewrite bind_ok by exact H. reflexivity.
Qed.

Lemma fillWithMedian_never_raises df cols w :
  exists w', fillWithMedian df cols w = (Ok (PyFrame df), w').
Proof.
  unfold fillWithMedian.
  destruct (guard_swallows
    (print [PText "columns to be filled with median values: "; PNames cols];;
     a ← getitem_list df cols;
     b ← getitem_list df cols;
     setitem_list df cols (frame_fillna a (frame_median b))) w) as (w' & H).
  exists w'. erewrite bind_ok by exact H. reflexivity.
Qed.

Lemma fillWithMean_never_raises df cols w :
  exists w', fillWithMean df cols w = (Ok (PyFrame df), w').
Proof.
  unfold fillWithMean.
  destruct (guard_swallows
    (print [PText "columns to be filled with mean values: "; PNames cols];;
     a ← getitem_list df cols;
     b ← getitem_list df cols;
     setitem_list df cols (frame_fillna a (frame_mean b))) w) as (w' & H).
  exists w'. erewrite bind_ok by exact H. reflexivity.
Qed.

Lemma fill_na_never_raises self type df cols w :
  exists v w', fill_na self type df cols w = (Ok v, w').
Proof.
  rewrite fill_na_unfold. unfold try_except.
  destruct (_ w) as [[v|e] w']; [eauto|].
  unfold fill_na_handler. eexists _, _. reflexivity.
Qed.

(** [remove_unwanted_cols] returns the table it holds; on an instance whose
    [df] was never set, the [return self.df] of the [finally] clause raises. *)
Lemma remove_unwanted_cols_set r cols w :
  exists w', remove_unwanted_cols (mkSelf (Some r)) cols w = (Ok (PyFrame r), w').
Proof.
  unfold remove_unwanted_cols.
  destruct (guard_swallows (r0 ← self_df (mkSelf (Some r)); drop_inplace r0 cols) w)
    as (w' & H).
  exists w'. erewrite bind_ok by exact H. reflexivity.
Qed.

Lemma remove_unwanted_cols_unset cols w :
  remove_unwanted_cols (mkSelf None) cols w =
    (Raise (AttributeError "df"),
     mkWorld (heap w) (stdout w ++ [[PError (AttributeError "df")]])).
Proof. reflexivity. Qed.

Section SweepTotal.
Variables (F Centers : Type).
Variable KMeans_fit : Z -> DataFrame -> Result (KModel F Centers).
Variable cdist : DataFrame -> Centers -> Result (list (list F)).
Variable np_min_rows : list (list F) -> Result (list F).
Variable py_sum : list F -> F.
Variable div_by : F -> nat -> Result F.

#[local] Abbreviation step :=
  (sweep_step KMeans_fit cdist np_min_rows py_sum div_by).
#[local] Abbreviation sweep :=
  (choose_k_means KMeans_fit cdist np_min_rows py_sum div_by).

Lemma sweep_loop_no_table w df K (l : Locals F) :
  heap w !! df = None ->
  for_each K (step df) (w, l) =
    (match K with [] => Ok tt | _ => Raise (LibraryError "no such table") end,
     (w, l)).
Proof.
  intros Hdf. destruct K as [|k K]; [reflexivity|].
  simpl for_each. eapply bind_raise. unfold sweep_step.
  eapply bind_raise. unfold in_world, load. cbn [fst snd]. now rewrite Hdf.
Qed.

(** [choose_k_means] returns a pair of lists in every case. *)
Lemma choose_k_means_never_raises w df num :
  exists ds ins w', sweep df num w = (Ok (ds, ins), w').
Proof.
  destruct (heap w !! df) as [T|] eqn:Hdf.
  - eexists _, _, _. apply (choose_k_means_run _ _ _ _ _ _ _ w df T num Hdf).
  - unfold choose_k_means, choose_k_means_body.
    assert (Hbody :
      (set_distortions [];; set_inertias [];; for_each (py_range 1 num) (step df))
        (w, mkLocals None None) =
      (match py_range 1 num with
       | [] => Ok tt | _ => Raise (LibraryError "no such table") end,
       (w, mkLocals (Some []) (Some [])))).
    { unfold mbind, ST_bind, set_distortions, set_inertias.
      cbn [fst snd distortions inertias].
      now rewrite (sweep_loop_no_table w df _ _ Hdf). }
    destruct (py_range 1 num).
    + erewrite bind_ok by (apply try_ok; exact Hbody). eexists _, _, _. reflexivity.
    + erewrite bind_ok by (erewrite try_raise by exact Hbody; reflexivity).
      eexists _, _, _. reflexivity.
Qed.

End SweepTotal.

(** C2.  Not every method keeps its exceptions to itself.  [fix_outlier]
    on a column the table does not have: the guarded statement's [KeyError]
    is caught and printed, and the [return df[column]] that follows the
    guard raises it again, to the caller. *)
Theorem fix_outlier_absent_column_raises :
  fix_outlier 0%nat "Y" Samples.world_X =
    (Raise (KeyError "Y"),
     mkWorld (heap Samples.world_X)
             [outlier_line "Y"; [PError (KeyError "Y")]]).
Proof.
  rewrite (fix_outlier_absent Samples.world_X 0%nat Samples.table_X "Y");
    reflexivity.
Qed.

(* ===================================================================== *)
(** * Further properties of the methods *)
(* ===================================================================== *)

Import Rows DataCleanerRest ReferenceRest SamplesRest.

(** ** More on columns *)

Lemma assign_col_wf n name s cs :
  length s = n ->
  Forall (fun c => length (snd c) = n) cs ->
  Forall (fun c => length (snd c) = n) (assign_col name s cs).
Proof.
  intros Hs. induction cs as [|[k s0] cs IH]; intros Hwf; simpl.
  - repeat constructor. exact Hs.
  - apply Forall_cons in Hwf as [Hk Hwf].
    destruct (String.eqb k name); constructor; auto.
Qed.

Lemma assign_col_same name s cs :
  lookup_col name cs = Some s -> assign_col name s cs = cs.
Proof.
  induction cs as [|[k s0] cs IH]; simpl; [discriminate|].
  destruct (String.eqb k name) eqn:E.
  - now intros [= ->].
  - intros H. now rewrite IH.
Qed.


(** ** Order statistics of a sorted list *)













(** ** More on [fix_outlier] *)

(** X1.  Clipping a numeric column touches nothing else: the table keeps its
    rows, its labels in their order and every other column, stays
    well-formed, and no other table of the store changes. *)
Theorem fix_outlier_keeps_rest_of_table w df T column s :
  heap w !! df = Some T ->
  lookup_col column (columns T) = Some s ->
  numeric s = true ->
  wf_frame T ->
  exists r w' T',
    fix_outlier df column w = (Ok r, w') /\
    heap w' !! df = Some T' /\
    index_len T' = index_len T /\
    map fst (columns T') = map fst (columns T) /\
    (forall c, c <> column ->
       lookup_col c (columns T') = lookup_col c (columns T)) /\
    wf_frame T' /\
    (forall df', df' <> df -> heap w' !! df' = heap w !! df').
Proof.
  intros Hdf Hs Hnum Hwf.
  pose proof (wf_lookup _ _ _ Hwf Hs) as Hlen.
  destruct (fix_outlier_numeric w df T column s Hdf Hs Hnum Hlen)
    as (q & m & cond & Eq & Em & Ec & Hrun).
  assert (Lc : length (np_where cond m s) = index_len T).
  { destruct (Series_gt_numeric s q Hnum) as (cond' & Ec' & Lc).
    - destruct (Series_quantile_numeric s (95 # 100) Hnum) as (q' & Eq' & Hq' & _).
      congruence.
    - rewrite np_where_length; [exact Hlen | congruence]. }
  eexists _, _, _. split; [exact Hrun|]. cbn [heap columns index_len].
  split; [apply lookup_insert_eq|]. split; [reflexivity|].
  split; [eapply assign_col_names; exact Hs|].
  split; [intros c Hc; apply lookup_assign_other; congruence|].
  split.
  - unfold wf_frame. cbn [columns index_len]. now apply assign_col_wf.
  - intros df' Hne. now apply lookup_insert_ne.
Qed.

Lemma fix_outlier_keeps_rest_of_table_witness :
  exists r w' T',
    fix_outlier 0%nat "A" Samples.world_AB = (Ok r, w') /\
    heap w' !! 0%nat = Some T' /\
    index_len T' = index_len Samples.table_AB /\
    map fst (columns T') = map fst (columns Samples.table_AB) /\
    (forall c, c <> "A" ->
       lookup_col c (columns T') = lookup_col c (columns Samples.table_AB)) /\
    wf_frame T' /\
    (forall df', df' <> 0%nat -> heap w' !! df' = heap Samples.world_AB !! df').
Proof.
  apply (fix_outlier_keeps_rest_of_table Samples.world_AB 0%nat Samples.table_AB
           "A" [Num 1; Null; Num 3]).
  - reflexivity.
  - reflexivity.
  - reflexivity.
  - repeat constructor.
Defined.



(** X3.  For every table that lacks the column, [fix_outlier] raises
    [KeyError] of that label, having printed it, and changes no table. *)
Theorem fix_outlier_absent_column_keeps_store w df T column :
  heap w !! df = Some T ->
  lookup_col column (columns T) = None ->
  fst (fix_outlier df column w) = Raise (KeyError column) /\
  heap (snd (fix_outlier df column w)) = heap w /\
  stdout (snd (fix_outlier df column w)) =
    stdout w ++ [outlier_line column; [PError (KeyError column)]].
Proof.
  intros Hdf Hs. rewrite (fix_outlier_absent w df T column Hdf Hs).
  cbn [fst snd heap stdout]. repeat split. now rewrite <- app_assoc.
Qed.

Lemma fix_outlier_absent_column_keeps_store_witness :
  fst (fix_outlier 0%nat "Z" Samples.world_AB) = Raise (KeyError "Z") /\
  heap (snd (fix_outlier 0%nat "Z" Samples.world_AB)) = heap Samples.world_AB /\
  stdout (snd (fix_outlier 0%nat "Z" Samples.world_AB)) =
    stdout Samples.world_AB ++ [outlier_line "Z"; [PError (KeyError "Z")]].
Proof.
  apply (fix_outlier_absent_column_keeps_store Samples.world_AB 0%nat
           Samples.table_AB "Z").
  - reflexivity.
  - reflexivity.
Defined.

Lemma Series_gt_null s cond : Series_gt s Null = Ok cond -> cond = map (fun _ => false) s.
Proof.
  revert cond. induction s as [|c s IH]; intros cond; simpl.
  - now intros [= <-].
  - destruct c; simpl; try discriminate;
      destruct (Series_gt s Null) eqn:E; simpl; try discriminate;
      intros [= <-]; now rewrite (IH _ eq_refl).
Qed.

Lemma np_where_all_false m (s : Series) : np_where (map (fun _ => false) s) m s = s.
Proof. induction s as [|c s IH]; simpl; [reflexivity | now rewrite IH]. Qed.

(** X4.  A column that holds no number (empty, or entirely null) has no
    percentile: [fix_outlier] gives it back as it is and the table is the
    same table afterwards. *)
Theorem fix_outlier_column_without_numbers w df T column s :
  heap w !! df = Some T ->
  lookup_col column (columns T) = Some s ->
  numeric s = true ->
  nums s = [] ->
  wf_frame T ->
  exists w',
    fix_outlier df column w = (Ok (PySeries s), w') /\
    heap w' = heap w.
Proof.
  intros Hdf Hs Hnum Hnone Hwf.
  pose proof (wf_lookup _ _ _ Hwf Hs) as Hlen.
  destruct (fix_outlier_numeric w df T column s Hdf Hs Hnum Hlen)
    as (q & m & cond & Eq & Em & Ec & Hrun).
  assert (q = Null).
  { unfold Series_quantile in Eq. rewrite Hnum, Hnone in Eq. congruence. }
  subst q. apply Series_gt_null in Ec. subst cond.
  rewrite np_where_all_false in Hrun.
  eexists. split; [exact Hrun|]. cbn [heap].
  rewrite (assign_col_same _ _ _ Hs).
  apply insert_id. rewrite Hdf. now destruct T.
Qed.

Lemma fix_outlier_column_without_numbers_witness :
  exists w',
    fix_outlier 0%nat "N"
      world_N =
      (Ok (PySeries [Null; Null]), w') /\
    heap w' = heap world_N.
Proof.
  apply (fix_outlier_column_without_numbers
           world_N
           0%nat table_N "N" [Null; Null]).
  - reflexivity.
  - reflexivity.
  - reflexivity.
  - reflexivity.
  - repeat constructor.
Defined.

(** ** More on [fillWithMedian] and [fillWithMean] *)


Section AssignFilled.
Variable orig : string -> Series.
Variable value : string -> Cell.

Lemma assign_filled_other cols cs c :
  ~ In c cols ->
  lookup_col c (assign_filled orig value cols cs) = lookup_col c cs.
Proof.
  revert cs. induction cols as [|k cols IH]; intros cs Hc; simpl; [reflexivity|].
  rewrite IH by (intros H; apply Hc; now right).
  apply lookup_assign_other. intros ->. apply Hc. now left.
Qed.

Lemma assign_filled_names cols cs :
  (forall c, In c cols -> lookup_col c cs <> None) ->
  map fst (assign_filled orig value cols cs) = map fst cs.
Proof.
  revert cs. induction cols as [|k cols IH]; intros cs H; simpl; [reflexivity|].
  destruct (lookup_col k cs) as [s|] eqn:Ek;
    [|now destruct (H k (or_introl eq_refl))].
  rewrite IH.
  - eapply assign_col_names; exact Ek.
  - intros c Hc. destruct (String.eqb_spec k c) as [<-|Hne].
    + now rewrite lookup_assign_same.
    + rewrite lookup_assign_other by exact Hne. apply H. now right.
Qed.

Lemma assign_filled_wf n cols cs :
  (forall c, In c cols -> length (filled orig value c) = n) ->
  Forall (fun c => length (snd c) = n) cs ->
  Forall (fun c => length (snd c) = n) (assign_filled orig value cols cs).
Proof.
  revert cs. induction cols as [|k cols IH]; intros cs H Hwf; simpl; [exact Hwf|].
  apply IH; [intros; apply H; now right|].
  apply assign_col_wf; [apply H; now left | exact Hwf].
Qed.

Lemma assign_filled_id cols cs :
  (forall c, In c cols -> lookup_col c cs = Some (filled orig value c)) ->
  assign_filled orig value cols cs = cs.
Proof.
  induction cols as [|k cols IH]; intros H; simpl; [reflexivity|].
  rewrite (assign_col_same _ _ _ (H k (or_introl eq_refl))).
  apply IH. intros; apply H; now right.
Qed.

End AssignFilled.

Lemma map_fill_null (s : Series) : map (fill_cell Null) s = s.
Proof.
  induction s as [|c s IH]; simpl; [reflexivity|].
  rewrite IH. now destruct c.
Qed.

Lemma map_fill_nonnull v (s : Series) :
  forallb (fun c => negb (isnull c)) s = true -> map (fill_cell v) s = s.
Proof.
  induction s as [|c s IH]; simpl; [reflexivity|].
  intros H. apply andb_prop in H as [Hc Hs]. rewrite (IH Hs).
  now destruct c.
Qed.

Lemma filled_nonnull t (s : Series) :
  forallb (fun c => negb (isnull c)) (map (fill_cell (Num t)) s) = true.
Proof. induction s as [|c s IH]; simpl; [reflexivity|]. rewrite IH. now destruct c. Qed.

Lemma numeric_fill v (s : Series) :
  is_num v = true -> numeric s = true -> numeric (map (fill_cell v) s) = true.
Proof.
  intros Hv. unfold numeric. induction s as [|c s IH]; simpl; [reflexivity|].
  intros H. apply andb_prop in H as [Hc Hs].
  rewrite (IH Hs), andb_true_r. now destruct c.
Qed.

Lemma Series_median_statistic : column_statistic Series_median.
Proof.
  intros s H. unfold Series_median. rewrite H.
  destruct (nums s) eqn:E; [left | right]; split; try congruence; eauto.
Qed.

Lemma Series_mean_statistic : column_statistic Series_mean.
Proof.
  intros s H. unfold Series_mean. rewrite H.
  destruct (nums s) eqn:E; [left | right]; split; try congruence; eauto.
Qed.

Lemma statistic_ok stat s :
  column_statistic stat -> numeric s = true ->
  exists v, stat s = Ok v /\ is_num v = true.
Proof.
  intros Hst Hn. destruct (Hst s Hn) as [[_ ->]|[_ (t & ->)]]; eauto.
Qed.

Section FillWithStat.
Variable stat : Series -> Result Cell.
Hypothesis Hstat : column_statistic stat.
Variables (msg : string) (w : World) (df : loc) (T : DataFrame) (cols : list string).
Hypothesis Hdf : heap w !! df = Some T.
Hypothesis Hwf : wf_frame T.
Hypothesis Hcols : forall c, In c cols ->
  exists s, lookup_col c (columns T) = Some s /\ numeric s = true.

#[local] Abbreviation orig := (col_or_nil (columns T)).
#[local] Abbreviation value := (fun c => stat_or_null stat (col_or_nil (columns T) c)).
#[local] Abbreviation T1 :=
  (mkDataFrame (index_len T) (assign_filled orig value cols (columns T))).

Lemma fill_with_stat_numeric_run :
  fill_with_stat msg stat df cols w =
    (Ok (PyFrame df),
     mkWorld (<[df := T1]> (heap w)) (stdout w ++ [[PText msg; PNames cols]])).
Proof.
  apply fill_with_stat_run; [exact Hdf | exact Hwf |].
  intros c Hc. destruct (Hcols c Hc) as (s & Hs & Hn).
  destruct (statistic_ok stat s Hstat Hn) as (v & Hv & _). eauto.
Qed.

Lemma filled_length c :
  In c cols -> length (filled orig value c) = index_len T.
Proof.
  intros Hc. destruct (Hcols c Hc) as (s & Hs & _).
  unfold filled, col_or_nil. rewrite length_map, Hs.
  eapply wf_lookup; eassumption.
Qed.

Lemma T1_wf : wf_frame T1.
Proof.
  unfold wf_frame. cbn [columns index_len].
  apply assign_filled_wf; [apply filled_length | exact Hwf].
Qed.

Lemma fill_with_stat_keeps_rest :
  keeps_rest T cols df w (fill_with_stat msg stat df cols w).
Proof.
  rewrite fill_with_stat_numeric_run. unfold keeps_rest. cbn [fst snd heap].
  split; [reflexivity|]. exists T1.
  split; [apply lookup_insert_eq|]. cbn [columns index_len].
  split; [reflexivity|].
  split.
  { apply assign_filled_names. intros c Hc.
    destruct (Hcols c Hc) as (s & -> & _). discriminate. }
  split; [intros c Hc; now apply assign_filled_other|].
  split; [apply T1_wf|].
  intros df' Hne. now apply lookup_insert_ne.
Qed.

(** The column of a listed label after the call. *)
Lemma T1_lookup c s :
  In c cols -> lookup_col c (columns T) = Some s ->
  lookup_col c (columns T1) = Some (map (fill_cell (stat_or_null stat s)) s).
Proof.
  intros Hc Hs. cbn [columns].
  rewrite assign_filled_lookup by now left.
  unfold filled, col_or_nil. now rewrite Hs.
Qed.

Lemma fill_with_stat_all_null c s :
  In c cols -> lookup_col c (columns T) = Some s -> nums s = [] ->
  exists T', heap (snd (fill_with_stat msg stat df cols w)) !! df = Some T' /\
             lookup_col c (columns T') = Some s.
Proof.
  intros Hc Hs Hnone. rewrite fill_with_stat_numeric_run. cbn [snd heap].
  exists T1. split; [apply lookup_insert_eq|].
  rewrite (T1_lookup c s Hc Hs).
  destruct (Hcols c Hc) as (s0 & Hs0 & Hn). assert (s0 = s) by congruence. subst s0.
  destruct (Hstat s Hn) as [[_ E]|[Hne _]]; [|contradiction].
  unfold stat_or_null. rewrite E. now rewrite map_fill_null.
Qed.

(** Filling a filled column again changes nothing. *)
Lemma refill_filled s :
  numeric s = true ->
  let s1 := map (fill_cell (stat_or_null stat s)) s in
  numeric s1 = true /\ map (fill_cell (stat_or_null stat s1)) s1 = s1.
Proof.
  intros Hn. cbv zeta.
  destruct (Hstat s Hn) as [[Hnone E]|[Hne (t & E)]].
  - assert (Ev : stat_or_null stat s = Null) by (unfold stat_or_null; now rewrite E).
    rewrite Ev, map_fill_null. split; [exact Hn|].
    rewrite Ev. apply map_fill_null.
  - assert (Ev : stat_or_null stat s = Num t) by (unfold stat_or_null; now rewrite E).
    rewrite Ev. split; [now apply numeric_fill|].
    apply map_fill_nonnull, filled_nonnull.
Qed.

End FillWithStat.

Lemma fill_with_stat_twice stat msg w df T cols :
  column_statistic stat ->
  heap w !! df = Some T ->
  wf_frame T ->
  (forall c, In c cols ->
     exists s, lookup_col c (columns T) = Some s /\ numeric s = true) ->
  heap (snd (fill_with_stat msg stat df cols
               (snd (fill_with_stat msg stat df cols w)))) =
  heap (snd (fill_with_stat msg stat df cols w)).
Proof.
  intros Hstat Hdf Hwf Hcols.
  rewrite (fill_with_stat_numeric_run stat Hstat msg w df T cols Hdf Hwf Hcols).
  cbn [snd].
  set (cs1 := assign_filled (col_or_nil (columns T))
                (fun c => stat_or_null stat (col_or_nil (columns T) c)) cols
                (columns T)).
  set (T1 := mkDataFrame (index_len T) cs1).
  set (w1 := mkWorld (<[df := T1]> (heap w)) (stdout w ++ [[PText msg; PNames cols]])).
  assert (Hdf1 : heap w1 !! df = Some T1) by apply lookup_insert_eq.
  assert (Hwf1 : wf_frame T1) by (apply (T1_wf stat T cols Hwf Hcols)).
  assert (Hlk : forall c, In c cols -> exists s,
            lookup_col c (columns T) = Some s /\ numeric s = true /\
            lookup_col c cs1 = Some (map (fill_cell (stat_or_null stat s)) s)).
  { intros c Hc. destruct (Hcols c Hc) as (s & Hs & Hn).
    exists s. split; [exact Hs|]. split; [exact Hn|].
    apply (T1_lookup stat T cols c s Hc Hs). }
  assert (Hcols1 : forall c, In c cols ->
            exists s, lookup_col c (columns T1) = Some s /\ numeric s = true).
  { intros c Hc. destruct (Hlk c Hc) as (s & Hs & Hn & H1).
    eexists. split; [exact H1|].
    apply (refill_filled stat Hstat s Hn). }
  rewrite (fill_with_stat_numeric_run stat Hstat msg w1 df T1 cols Hdf1 Hwf1 Hcols1).
  cbn [snd heap columns index_len].
  rewrite assign_filled_id.
  - apply insert_id. exact Hdf1.
  - intros c Hc. destruct (Hlk c Hc) as (s & Hs & Hn & H1).
    unfold filled, col_or_nil. change (columns T1) with cs1. rewrite H1.
    f_equal. symmetry. apply (refill_filled stat Hstat s Hn).
Qed.




(** X6.  Filling listed numeric columns touches nothing else: the table
    keeps its rows, its labels in their order and every column that is not
    listed, stays well-formed, and no other table of the store changes. *)
Theorem fillWith_keeps_rest_of_table w df T cols :
  heap w !! df = Some T ->
  wf_frame T ->
  (forall c, In c cols ->
     exists s, lookup_col c (columns T) = Some s /\ numeric s = true) ->
  keeps_rest T cols df w (fillWithMedian df cols w) /\
  keeps_rest T cols df w (fillWithMean df cols w).
Proof.
  intros Hdf Hwf Hcols. split.
  - exact (fill_with_stat_keeps_rest Series_median Series_median_statistic _
             w df T cols Hdf Hwf Hcols).
  - exact (fill_with_stat_keeps_rest Series_mean Series_mean_statistic _
             w df T cols Hdf Hwf Hcols).
Qed.

Lemma fillWith_keeps_rest_of_table_witness :
  keeps_rest table_NV ["V"] 0%nat world_NV (fillWithMedian 0%nat ["V"] world_NV) /\
  keeps_rest table_NV ["V"] 0%nat world_NV (fillWithMean 0%nat ["V"] world_NV).
Proof.
  apply (fillWith_keeps_rest_of_table world_NV 0%nat table_NV ["V"]).
  - reflexivity.
  - repeat constructor.
  - intros c [<-|[]]. eexists. split; reflexivity.
Defined.

(** X7.  Filling is idempotent.  A second call of [fillWithMedian] (of
    [fillWithMean]) with the same columns leaves the store as the first
    call left it. *)
Theorem fillWith_twice_same_as_once w df T cols :
  heap w !! df = Some T ->
  wf_frame T ->
  (forall c, In c cols ->
     exists s, lookup_col c (columns T) = Some s /\ numeric s = true) ->
  heap (snd (fillWithMedian df cols (snd (fillWithMedian df cols w)))) =
    heap (snd (fillWithMedian df cols w)) /\
  heap (snd (fillWithMean df cols (snd (fillWithMean df cols w)))) =
    heap (snd (fillWithMean df cols w)).
Proof.
  intros Hdf Hwf Hcols. split.
  - exact (fill_with_stat_twice Series_median _ w df T cols
             Series_median_statistic Hdf Hwf Hcols).
  - exact (fill_with_stat_twice Series_mean _ w df T cols
             Series_mean_statistic Hdf Hwf Hcols).
Qed.

Lemma fillWith_twice_same_as_once_witness :
  heap (snd (fillWithMedian 0%nat ["N"; "V"]
               (snd (fillWithMedian 0%nat ["N"; "V"] world_NV)))) =
    heap (snd (fillWithMedian 0%nat ["N"; "V"] world_NV)) /\
  heap (snd (fillWithMean 0%nat ["N"; "V"]
               (snd (fillWithMean 0%nat ["N"; "V"] world_NV)))) =
    heap (snd (fillWithMean 0%nat ["N"; "V"] world_NV)).
Proof.
  apply (fillWith_twice_same_as_once world_NV 0%nat table_NV ["N"; "V"]).
  - reflexivity.
  - repeat constructor.
  - intros c [<-|[<-|[]]]; eexists; split; reflexivity.
Defined.

(** X8.  A listed column that is entirely null has no median and no mean,
    and stays entirely null: both methods leave it as it was. *)
Theorem fillWith_all_null_column_stays_null w df T cols c s :
  heap w !! df = Some T ->
  wf_frame T ->
  (forall c, In c cols ->
     exists s, lookup_col c (columns T) = Some s /\ numeric s = true) ->
  In c cols ->
  lookup_col c (columns T) = Some s ->
  nums s = [] ->
  (exists T', heap (snd (fillWithMedian df cols w)) !! df = Some T' /\
              lookup_col c (columns T') = Some s) /\
  (exists T', heap (snd (fillWithMean df cols w)) !! df = Some T' /\
              lookup_col c (columns T') = Some s).
Proof.
  intros Hdf Hwf Hcols Hc Hs Hnone. split.
  - exact (fill_with_stat_all_null Series_median Series_median_statistic _
             w df T cols Hdf Hwf Hcols c s Hc Hs Hnone).
  - exact (fill_with_stat_all_null Series_mean Series_mean_statistic _
             w df T cols Hdf Hwf Hcols c s Hc Hs Hnone).
Qed.

Lemma fillWith_all_null_column_stays_null_witness :
  (exists T', heap (snd (fillWithMedian 0%nat ["N"; "V"] world_NV)) !! 0%nat = Some T' /\
              lookup_col "N" (columns T') = Some [Null; Null]) /\
  (exists T', heap (snd (fillWithMean 0%nat ["N"; "V"] world_NV)) !! 0%nat = Some T' /\
              lookup_col "N" (columns T') = Some [Null; Null]).
Proof.
  apply (fillWith_all_null_column_stays_null world_NV 0%nat table_NV ["N"; "V"]
           "N" [Null; Null]).
  - reflexivity.
  - repeat constructor.
  - intros c [<-|[<-|[]]]; eexists; split; reflexivity.
  - simpl. auto.
  - reflexivity.
  - reflexivity.
Defined.

(** ** [remove_unwanted_cols] *)

Lemma listed_In names n : listed names n = true <-> In n names.
Proof.
  unfold listed. rewrite existsb_exists. split.
  - intros (x & Hx & E). apply String.eqb_eq in E. now subst.
  - intros H. exists n. split; [exact H | apply String.eqb_refl].
Qed.

Lemma drop_filter names (cs : list (string * Series)) :
  filter (fun c => Is_true (negb (existsb (String.eqb (fst c)) names))) cs =
  kept_columns names cs.
Proof.
  unfold kept_columns, listed. induction cs as [|c cs IH]; [reflexivity|].
  rewrite filter_cons. simpl List.filter.
  destruct (negb (existsb (String.eqb (fst c)) names)) eqn:E.
  - rewrite decide_True by exact I. now rewrite IH.
  - rewrite decide_False by (intros []). exact IH.
Qed.

Lemma frame_drop_present T names :
  (forall c, In c names -> lookup_col c (columns T) <> None) ->
  frame_drop T names =
    Ok (mkDataFrame (index_len T) (kept_columns names (columns T))).
Proof.
  intros H. unfold frame_drop.
  destruct (find _ names) as [n|] eqn:E.
  - apply find_some in E as [Hin Hn].
    destruct (lookup_col n (columns T)) eqn:El; [discriminate|].
    now destruct (H n Hin).
  - now rewrite drop_filter.
Qed.

Lemma frame_drop_absent T names c :
  In c names -> lookup_col c (columns T) = None ->
  exists c0, In c0 names /\ lookup_col c0 (columns T) = None /\
             frame_drop T names = Raise (KeyError c0).
Proof.
  intros Hin Hc. unfold frame_drop.
  destruct (find _ names) as [n|] eqn:E.
  - apply find_some in E as [Hn El]. exists n. split; [exact Hn|].
    destruct (lookup_col n (columns T)); [discriminate|]. split; reflexivity.
  - eapply find_none in E; [|exact Hin]. rewrite Hc in E. discriminate.
Qed.

Lemma lookup_kept names cs c :
  lookup_col c (kept_columns names cs) =
  if listed names c then None else lookup_col c cs.
Proof.
  unfold kept_columns. induction cs as [|[k s] cs IH]; simpl.
  - now destruct (listed names c).
  - destruct (listed names k) eqn:Ek; simpl.
    + rewrite IH. destruct (String.eqb_spec k c) as [->|Hne]; [|reflexivity].
      now rewrite Ek.
    + destruct (String.eqb_spec k c) as [->|Hne]; [now rewrite Ek | exact IH].
Qed.

Lemma names_kept names cs :
  map fst (kept_columns names cs) =
  List.filter (fun n => negb (listed names n)) (map fst cs).
Proof.
  unfold kept_columns. induction cs as [|[k s] cs IH]; simpl; [reflexivity|].
  destruct (listed names k); simpl; now rewrite IH.
Qed.

Lemma remove_unwanted_cols_present_run r cols w T :
  heap w !! r = Some T ->
  (forall c, In c cols -> lookup_col c (columns T) <> None) ->
  exists w' T',
    remove_unwanted_cols (mkSelf (Some r)) cols w = (Ok (PyFrame r), w') /\
    heap w' !! r = Some T' /\
    stdout w' = stdout w /\
    index_len T' = index_len T /\
    map fst (columns T') =
      List.filter (fun n => negb (listed cols n)) (map fst (columns T)) /\
    (forall c, In c cols -> lookup_col c (columns T') = None) /\
    (forall c, ~ In c cols ->
       lookup_col c (columns T') = lookup_col c (columns T)).
Proof.
  intros Hr Hall. unfold remove_unwanted_cols.
  eexists _, _. split.
  { erewrite bind_ok.
    2:{ apply try_ok. run_with ltac:(reflexivity). unfold drop_inplace.
        run_with ltac:(apply load_run; exact Hr).
        run_with ltac:(rewrite lift_run, (frame_drop_present T cols Hall); reflexivity).
        reflexivity. }
    reflexivity. }
  cbn [heap stdout].
  split; [apply lookup_insert_eq|]. cbn [columns index_len].
  split; [reflexivity|]. split; [reflexivity|].
  split; [apply names_kept|].
  split; intros c Hc; rewrite lookup_kept.
  - apply listed_In in Hc. now rewrite Hc.
  - destruct (listed cols c) eqn:E; [|reflexivity].
    apply listed_In in E. contradiction.
Qed.

(** X9.  When every listed label is a column of the table the instance
    holds, [remove_unwanted_cols] removes exactly those columns: the table
    keeps its rows and, in their order and with their cells, the columns
    that are not listed; nothing is printed and the table is returned. *)
Theorem remove_unwanted_cols_drops_listed r cols w T :
  heap w !! r = Some T ->
  (forall c, In c cols -> lookup_col c (columns T) <> None) ->
  exists w' T',
    remove_unwanted_cols (mkSelf (Some r)) cols w = (Ok (PyFrame r), w') /\
    heap w' !! r = Some T' /\
    stdout w' = stdout w /\
    index_len T' = index_len T /\
    map fst (columns T') =
      List.filter (fun n => negb (listed cols n)) (map fst (columns T)) /\
    (forall c, In c cols -> lookup_col c (columns T') = None) /\
    (forall c, ~ In c cols ->
       lookup_col c (columns T') = lookup_col c (columns T)).
Proof. apply remove_unwanted_cols_present_run. Qed.

Lemma remove_unwanted_cols_drops_listed_witness :
  exists w' T',
    remove_unwanted_cols (mkSelf (Some 0%nat)) ["B"] Samples.world_AB =
      (Ok (PyFrame 0%nat), w') /\
    heap w' !! 0%nat = Some T' /\
    stdout w' = stdout Samples.world_AB /\
    index_len T' = index_len Samples.table_AB /\
    map fst (columns T') =
      List.filter (fun n => negb (listed ["B"] n))
        (map fst (columns Samples.table_AB)) /\
    (forall c, In c ["B"] -> lookup_col c (columns T') = None) /\
    (forall c, ~ In c ["B"] ->
       lookup_col c (columns T') = lookup_col c (columns Samples.table_AB)).
Proof.
  apply (remove_unwanted_cols_drops_listed 0%nat ["B"] Samples.world_AB
           Samples.table_AB).
  - reflexivity.
  - intros c [<-|[]]. discriminate.
Defined.

Lemma remove_unwanted_cols_absent_run r cols w T c :
  heap w !! r = Some T ->
  In c cols -> lookup_col c (columns T) = None ->
  exists c0, In c0 cols /\ lookup_col c0 (columns T) = None /\
    remove_unwanted_cols (mkSelf (Some r)) cols w =
      (Ok (PyFrame r), mkWorld (heap w) (stdout w ++ [[PError (KeyError c0)]])).
Proof.
  intros Hr Hin Hc.
  destruct (frame_drop_absent T cols c Hin Hc) as (c0 & H0 & H1 & Hd).
  exists c0. split; [exact H0|]. split; [exact H1|].
  unfold remove_unwanted_cols.
  erewrite bind_ok.
  2:{ erewrite try_raise.
      2:{ run_with ltac:(reflexivity). unfold drop_inplace.
          run_with ltac:(apply load_run; exact Hr).
          eapply bind_raise. rewrite lift_run, Hd. reflexivity. }
      apply print_run. }
  reflexivity.
Qed.



(** X11.  Removing the same columns a second time removes nothing: after a
    call that removed a non-empty list of columns, the same call finds its
    first label gone, prints the [KeyError] and leaves the store as the
    first call left it. *)
Theorem remove_unwanted_cols_twice r cols w T :
  heap w !! r = Some T ->
  cols <> [] ->
  (forall c, In c cols -> lookup_col c (columns T) <> None) ->
  exists w1 c0,
    remove_unwanted_cols (mkSelf (Some r)) cols w = (Ok (PyFrame r), w1) /\
    In c0 cols /\
    remove_unwanted_cols (mkSelf (Some r)) cols w1 =
      (Ok (PyFrame r), mkWorld (heap w1) (stdout w1 ++ [[PError (KeyError c0)]])).
Proof.
  intros Hr Hne Hall.
  destruct (remove_unwanted_cols_present_run r cols w T Hr Hall)
    as (w1 & T1 & Hrun & Hr1 & _ & _ & _ & Hgone & _).
  destruct cols as [|c cols]; [congruence|].
  destruct (remove_unwanted_cols_absent_run r (c :: cols) w1 T1 c Hr1
              (or_introl eq_refl) (Hgone c (or_introl eq_refl)))
    as (c0 & H0 & _ & Hrun2).
  exists w1, c0. split; [exact Hrun|]. split; [exact H0 | exact Hrun2].
Qed.

Lemma remove_unwanted_cols_twice_witness :
  exists w1 c0,
    remove_unwanted_cols (mkSelf (Some 0%nat)) ["B"] Samples.world_AB =
      (Ok (PyFrame 0%nat), w1) /\
    In c0 ["B"] /\
    remove_unwanted_cols (mkSelf (Some 0%nat)) ["B"] w1 =
      (Ok (PyFrame 0%nat),
       mkWorld (heap w1) (stdout w1 ++ [[PError (KeyError c0)]])).
Proof.
  apply (remove_unwanted_cols_twice 0%nat ["B"] Samples.world_AB Samples.table_AB).
  - reflexivity.
  - discriminate.
  - intros c [<-|[]]. discriminate.
Defined.

(** X12.  The class as [__init__] builds it holds no table.  On such an
    instance [remove_unwanted_cols] raises [AttributeError] to its caller
    (from the [return] of its [finally] clause), whatever the columns, and
    [fill_na] returns [None], whatever the kind and the columns; neither
    changes a table. *)
Theorem fresh_instance_holds_no_table w cols type df :
  exists self w1,
    init w = (Ok self, w1) /\
    heap w1 = heap w /\
    fst (remove_unwanted_cols self cols w1) = Raise (AttributeError "df") /\
    heap (snd (remove_unwanted_cols self cols w1)) = heap w /\
    fst (fill_na self type df cols w1) = Ok PyNone /\
    heap (snd (fill_na self type df cols w1)) = heap w.
Proof.
  eexists _, _. split; [reflexivity|]. split; [reflexivity|].
  split; [reflexivity|]. split; [reflexivity|].
  split; [|now rewrite fill_na_heap].
  rewrite fill_na_unfold. unfold try_except.
  destruct (String.eqb type "mean"); [|destruct (String.eqb type "median");
    [|destruct (String.eqb type "mode"); [|reflexivity]]].
  all: destruct cols as [|c cols];
    [ reflexivity
    | match goal with
      | |- context [fill_na_branch ?s ?d ?st (c :: cols) ?w0] =>
          destruct (fill_na_branch_nonempty s d st c cols w0) as (e & ->)
      end; reflexivity ].
Qed.

(** ** More on [fill_na] *)

(** X13.  A kind other than "mean", "median" and "mode" gets the usage
    message and nothing else: [None] is returned and no table changes,
    whatever the instance, the table and the columns. *)
Theorem fill_na_unknown_kind_prints_usage self type df cols w :
  type <> "mean" -> type <> "median" -> type <> "mode" ->
  fill_na self type df cols w =
    (Ok PyNone,
     mkWorld (heap w)
             (stdout w ++ [[PText "type must be either mean, median or mode"]])).
Proof. apply fill_na_other_kind. Qed.

Lemma fill_na_unknown_kind_prints_usage_witness :
  fill_na (mkSelf (Some 0%nat)) "max" 0%nat ["A"] Samples.world_AB =
    (Ok PyNone,
     mkWorld (heap Samples.world_AB)
             (stdout Samples.world_AB ++
              [[PText "type must be either mean, median or mode"]])).
Proof.
  apply (fill_na_unknown_kind_prints_usage (mkSelf (Some 0%nat)) "max" 0%nat
           ["A"] Samples.world_AB); discriminate.
Defined.

(** X14.  With one of the three kinds and at least one column, [fill_na]
    fills nothing, for every instance, table and store: the first turn of
    its loop raises, one exception is printed, [None] is returned and the
    store is as it was. *)
Theorem fill_na_known_kind_fills_nothing self type df cols w :
  type = "mean" \/ type = "median" \/ type = "mode" ->
  cols <> [] ->
  exists e,
    fill_na self type df cols w =
      (Ok PyNone, mkWorld (heap w) (stdout w ++ [[PError e]])).
Proof.
  intros Hk Hne. destruct cols as [|c cols]; [congruence|].
  now apply fill_na_never_fills.
Qed.

Lemma fill_na_known_kind_fills_nothing_witness :
  exists e,
    fill_na (mkSelf (Some 0%nat)) "median" 0%nat ["A"; "B"] Samples.world_AB =
      (Ok PyNone,
       mkWorld (heap Samples.world_AB) (stdout Samples.world_AB ++ [[PError e]])).
Proof.
  apply (fill_na_known_kind_fills_nothing (mkSelf (Some 0%nat)) "median" 0%nat
           ["A"; "B"] Samples.world_AB).
  - right. left. reflexivity.
  - discriminate.
Defined.

(** X15.  Nothing to fill.  With one of the three kinds, an empty column
    list and an instance that holds a table, [fill_na] returns that table,
    prints nothing and changes nothing. *)
Theorem fill_na_no_columns_returns_table r type df w :
  type = "mean" \/ type = "median" \/ type = "mode" ->
  fill_na (mkSelf (Some r)) type df [] w = (Ok (PyFrame r), w).
Proof. intros [-> | [-> | ->]]; reflexivity. Qed.

Lemma fill_na_no_columns_returns_table_witness :
  fill_na (mkSelf (Some 0%nat)) "mode" 0%nat [] Samples.world_AB =
    (Ok (PyFrame 0%nat), Samples.world_AB).
Proof.
  apply (fill_na_no_columns_returns_table 0%nat "mode" 0%nat Samples.world_AB).
  right. right. reflexivity.
Defined.

(** ** More on [percent_missing] *)

Lemma null_count_le (l : list Cell) : (null_count l <= length l)%nat.
Proof. induction l as [|c l IH]; simpl; [lia|]. destruct (isnull c); lia. Qed.

Lemma sum_nat_le_const (f : nat -> nat) k l :
  (forall i, f i <= k)%nat -> (sum_nat (map f l) <= length l * k)%nat.
Proof.
  intros H. induction l as [|i l IH]; simpl; [lia|]. specialize (H i). lia.
Qed.

Lemma null_cells_le T :
  (null_cells T <= index_len T * length (columns T))%nat.
Proof.
  unfold null_cells, null_cells_of.
  pose proof (sum_nat_le_const (fun i => null_count (row (columns T) i))
                (length (columns T)) (seq 0 (index_len T))) as H.
  rewrite length_seq in H. apply H. intros i.
  etransitivity; [apply null_count_le|]. unfold row. now rewrite length_map.
Qed.

Lemma exact_percent_bounds T :
  (0 < index_len T)%nat -> columns T <> [] ->
  0 <= exact_percent_missing T <= 100.
Proof.
  intros Hr Hc.
  assert (Hcells : (0 < index_len T * length (columns T))%nat).
  { destruct (columns T); [contradiction | simpl length; lia]. }
  pose proof (null_cells_le T) as Hle.
  unfold exact_percent_missing, Qdiv, Q_of_nat.
  set (a := null_cells T) in *. set (b := (index_len T * length (columns T))%nat) in *.
  assert (Hb : 0 < inject_Z (Z.of_nat b)).
  { rewrite <- (Zlt_Qlt 0). lia. }
  assert (Ha0 : 0 <= inject_Z (Z.of_nat a)).
  { rewrite <- (Zle_Qle 0). lia. }
  assert (Hab : inject_Z (Z.of_nat a) <= inject_Z (Z.of_nat b)).
  { rewrite <- Zle_Qle. lia. }
  split.
  - apply Qmult_le_0_compat; [apply Qmult_le_0_compat; [discriminate | exact Ha0]|].
    apply Qlt_le_weak, Qinv_lt_0_compat, Hb.
  - apply Qle_shift_div_r; [exact Hb|]. lra.
Qed.

Lemma integer_ge_half z : - (1 # 2) <= inject_Z z -> (0 <= z)%Z.
Proof. unfold Qle. simpl. lia. Qed.

Lemma round_to_10_bounds q : 0 <= q <= 100 -> 0 <= round_to q 10 <= 100.
Proof.
  intros [H0 H1].
  pose proof (round_to_10_scaled q) as Hs.
  pose proof (round_half_even_close (q * 10000000000)) as [Hlo Hhi].
  set (z := round_half_even (q * 10000000000)) in *.
  assert (Hz0 : (0 <= z)%Z) by (apply integer_ge_half; lra).
  assert (Hz1 : (z <= 1000000000000)%Z).
  { assert (H : - (1 # 2) <= inject_Z (1000000000000 - z)).
    { unfold Z.sub. rewrite inject_Z_plus, inject_Z_opp.
      change (inject_Z 1000000000000) with 1000000000000. lra. }
    apply integer_ge_half in H. lia. }
  rewrite Zle_Qle in Hz0, Hz1.
  change (inject_Z 0) with 0 in Hz0.
  change (inject_Z 1000000000000) with 1000000000000 in Hz1.
  split; lra.
Qed.

Lemma percent_missing_run w df T :
  heap w !! df = Some T ->
  percent_missing df w =
    (Ok PyNone,
     mkWorld (heap w)
       (stdout w ++
        [[PText "The dataset contains";
          PValue (py_round (cell_mul
                    (np_true_divide (counts_sum (frame_isnull_sum T))
                                    (np_product_shape T)) 100) 10);
          PText "%"; PText "missing values."]])).
Proof.
  intros Hdf. unfold percent_missing.
  erewrite bind_ok.
  2:{ apply try_ok.
      run_with ltac:(apply load_run; exact Hdf).
      run_with ltac:(apply load_run; exact Hdf).
      apply print_run. }
  reflexivity.
Qed.

(** X16.  The percentage that [percent_missing] prints for a well-formed,
    non-empty table lies between 0 and 100, and is 100 when every cell is
    null. *)
Theorem percent_missing_between_0_and_100 w df T :
  heap w !! df = Some T ->
  wf_frame T ->
  (0 < index_len T)%nat ->
  columns T <> [] ->
  exists v,
    stdout (snd (percent_missing df w)) = stdout w ++ [percent_line v] /\
    0 <= v <= 100 /\
    (null_cells T = (index_len T * length (columns T))%nat -> v == 100).
Proof.
  intros Hdf Hwf Hr Hc.
  assert (Hcells : Nat.eqb (np_product_shape T) 0 = false).
  { apply Nat.eqb_neq. unfold np_product_shape.
    destruct (columns T); [contradiction | simpl length; lia]. }
  exists (round_to (exact_percent_missing T) 10).
  split.
  { rewrite (percent_missing_run w df T Hdf). cbn [snd stdout].
    unfold np_true_divide. rewrite Hcells. cbn [cell_mul py_round].
    unfold frame_isnull_sum.
    rewrite (counts_sum_by_row (index_len T) (columns T) Hwf).
    fold (null_cells T).
    rewrite (round_to_comp _ (exact_percent_missing T)); [reflexivity|].
    unfold exact_percent_missing, np_product_shape, Qdiv. ring. }
  split; [apply round_to_10_bounds, exact_percent_bounds; assumption|].
  intros Hall.
  rewrite (round_to_comp _ 100); [reflexivity|].
  unfold exact_percent_missing. rewrite Hall.
  assert (Hb : ~ Q_of_nat (index_len T * length (columns T)) == 0).
  { unfold Q_of_nat, Qeq. cbn [Qnum Qden inject_Z]. intros H.
    destruct (columns T); [contradiction|]. simpl length in H. nia. }
  field. exact Hb.
Qed.

Lemma percent_missing_between_0_and_100_witness :
  exists v,
    stdout (snd (percent_missing 0%nat Samples.world_10x3)) =
      stdout Samples.world_10x3 ++ [percent_line v] /\
    0 <= v <= 100 /\
    (null_cells Samples.table_10x3 =
       (index_len Samples.table_10x3 * length (columns Samples.table_10x3))%nat ->
     v == 100).
Proof.
  apply (percent_missing_between_0_and_100 Samples.world_10x3 0%nat
           Samples.table_10x3).
  - reflexivity.
  - repeat constructor.
  - simpl. lia.
  - discriminate.
Defined.

(** X17.  A table without rows or without columns has no cells to divide by:
    [percent_missing] then prints NaN as the percentage, raises nothing
    and returns [None]. *)
Theorem percent_missing_empty_table_prints_nan w df T :
  heap w !! df = Some T ->
  wf_frame T ->
  index_len T = 0%nat \/ columns T = [] ->
  percent_missing df w =
    (Ok PyNone,
     mkWorld (heap w)
       (stdout w ++
        [[PText "The dataset contains"; PValue Null; PText "%";
          PText "missing values."]])).
Proof.
  intros Hdf _ Hempty. rewrite (percent_missing_run w df T Hdf).
  assert (E : np_product_shape T = 0%nat).
  { unfold np_product_shape. destruct Hempty as [-> | ->]; simpl; lia. }
  rewrite E. reflexivity.
Qed.

Lemma percent_missing_empty_table_prints_nan_witness :
  percent_missing 0%nat world_empty =
    (Ok PyNone,
     mkWorld (heap world_empty)
       (stdout world_empty ++
        [[PText "The dataset contains"; PValue Null; PText "%";
          PText "missing values."]])).
Proof.
  apply (percent_missing_empty_table_prints_nan
           world_empty 0%nat
           table_empty).
  - reflexivity.
  - repeat constructor.
  - left. reflexivity.
Defined.

(** X18.  [percent_missing] only reports: for every argument and store it
    returns [None], prints exactly one line and changes no table. *)
Theorem percent_missing_only_prints df w :
  exists line,
    percent_missing df w = (Ok PyNone, mkWorld (heap w) (stdout w ++ [line])).
Proof.
  destruct (heap w !! df) as [T|] eqn:Hdf.
  - eexists. apply (percent_missing_run w df T Hdf).
  - eexists. unfold percent_missing.
    erewrite bind_ok.
    2:{ erewrite try_raise.
        2:{ eapply bind_raise. unfold load. rewrite Hdf. reflexivity. }
        apply print_run. }
    reflexivity.
Qed.

(** ** More on [choose_k_means] *)

Section SweepMore.
Variables (F Centers : Type).
Variable KMeans_fit : Z -> DataFrame -> Result (KModel F Centers).
Variable cdist : DataFrame -> Centers -> Result (list (list F)).
Variable np_min_rows : list (list F) -> Result (list F).
Variable py_sum : list F -> F.
Variable div_by : F -> nat -> Result F.

#[local] Abbreviation prefix :=
  (sweep_prefix KMeans_fit cdist np_min_rows py_sum div_by).
#[local] Abbreviation step :=
  (sweep_step KMeans_fit cdist np_min_rows py_sum div_by).
#[local] Abbreviation sweep :=
  (choose_k_means KMeans_fit cdist np_min_rows py_sum div_by).

Lemma prefix_length_le T K : (length (fst (prefix T K)) <= length K)%nat.
Proof.
  induction K as [|k K IH]; simpl; [lia|].
  destruct (sweep_entry _ _ _ _ _ T k); simpl; lia.
Qed.

Lemma prefix_app T K1 K2 :
  exists rest, fst (prefix T (K1 ++ K2)) = fst (prefix T K1) ++ rest.
Proof.
  induction K1 as [|k K1 IH]; simpl.
  - eexists. reflexivity.
  - destruct (sweep_entry _ _ _ _ _ T k); simpl.
    + destruct IH as (rest & ->). eexists. reflexivity.
    + eexists. reflexivity.
Qed.

Lemma after_sweep_heap w err : heap (after_sweep w err) = heap w.
Proof. now destruct err. Qed.

Lemma choose_k_means_outcome w df num :
  exists pre err,
    sweep df num w = (Ok (map fst pre, map snd pre), after_sweep w err) /\
    (length pre <= Z.to_nat (num - 1))%nat.
Proof.
  destruct (heap w !! df) as [T|] eqn:Hdf.
  - eexists _, _. split.
    + apply (choose_k_means_run _ _ _ _ _ _ _ w df T num Hdf).
    + etransitivity; [apply prefix_length_le|]. unfold py_range.
      now rewrite length_seqZ.
  - unfold choose_k_means, choose_k_means_body.
    assert (Hbody :
      (set_distortions [];; set_inertias [];; for_each (py_range 1 num) (step df))
        (w, mkLocals None None) =
      (match py_range 1 num with
       | [] => Ok tt | _ => Raise (LibraryError "no such table") end,
       (w, mkLocals (Some []) (Some [])))).
    { unfold mbind, ST_bind, set_distortions, set_inertias.
      cbn [fst snd distortions inertias].
      now rewrite (sweep_loop_no_table _ _ _ _ _ _ _ w df _ _ Hdf). }
    destruct (py_range 1 num).
    + erewrite bind_ok by (apply try_ok; exact Hbody).
      exists [], None. split; [reflexivity | simpl; lia].
    + erewrite bind_ok by (erewrite try_raise by exact Hbody; reflexivity).
      exists [], (Some (LibraryError "no such table")).
      split; [reflexivity | simpl; lia].
Qed.

(** X19.  Whatever happens in the sweep, [choose_k_means] returns two lists
    of the same length, at most [num - 1], and changes no table. *)
Theorem choose_k_means_lists_agree w df num :
  exists ds ins w',
    choose_k_means KMeans_fit cdist np_min_rows py_sum div_by df num w =
      (Ok (ds, ins), w') /\
    length ds = length ins /\
    (length ds <= Z.to_nat (num - 1))%nat /\
    heap w' = heap w.
Proof.
  destruct (choose_k_means_outcome w df num) as (pre & err & Hrun & Hlen).
  eexists _, _, _. split; [exact Hrun|].
  rewrite !length_map. split; [reflexivity|]. split; [exact Hlen|].
  apply after_sweep_heap.
Qed.

(** X20.  With [num] at most 1 there is no candidate: both lists are empty
    and nothing is printed, whatever the table, the store and the
    clustering library. *)
Theorem choose_k_means_no_candidate w df num :
  (num <= 1)%Z ->
  choose_k_means KMeans_fit cdist np_min_rows py_sum div_by df num w =
    (Ok ([], []), w).
Proof.
  intros Hnum. unfold choose_k_means, choose_k_means_body, py_range.
  rewrite seqZ_nil by lia. reflexivity.
Qed.

(** X21.  Asking for more candidates only extends the answer: on the same
    table, the lists returned for [num] are prefixes of the lists returned
    for any larger [num']. *)
Theorem choose_k_means_extends w df T num num' :
  heap w !! df = Some T ->
  (num <= num')%Z ->
  exists ds ins ds' ins' w1 w2,
    choose_k_means KMeans_fit cdist np_min_rows py_sum div_by df num w =
      (Ok (ds, ins), w1) /\
    choose_k_means KMeans_fit cdist np_min_rows py_sum div_by df num' w =
      (Ok (ds', ins'), w2) /\
    ds `prefix_of` ds' /\
    ins `prefix_of` ins'.
Proof.
  intros Hdf Hle.
  eexists _, _, _, _, _, _.
  split; [apply (choose_k_means_run _ _ _ _ _ _ _ w df T num Hdf)|].
  split; [apply (choose_k_means_run _ _ _ _ _ _ _ w df T num' Hdf)|].
  assert (Hsplit : exists K2, py_range 1 num' = py_range 1 num ++ K2).
  { unfold py_range. destruct (Z_le_gt_dec num 1) as [Hs|Hs].
    - rewrite (seqZ_nil 1 (num - 1)) by lia. eexists. reflexivity.
    - replace (num' - 1)%Z with ((num - 1) + (num' - num))%Z by lia.
      rewrite seqZ_app by lia. eexists. reflexivity. }
  destruct Hsplit as (K2 & ->).
  destruct (prefix_app T (py_range 1 num) K2) as (rest & ->).
  rewrite !map_app. split; eexists; reflexivity.
Qed.

End SweepMore.

Lemma choose_k_means_no_candidate_witness :
  choose_k_means Samples.toy_fit Samples.toy_cdist Samples.toy_min_rows sumQ
    Samples.toy_div 0%nat 1 Samples.world_2 = (Ok ([], []), Samples.world_2).
Proof.
  apply (choose_k_means_no_candidate Q unit Samples.toy_fit Samples.toy_cdist
           Samples.toy_min_rows sumQ Samples.toy_div Samples.world_2 0%nat 1).
  lia.
Defined.

Lemma choose_k_means_extends_witness :
  exists ds ins ds' ins' w1 w2,
    choose_k_means Samples.toy_fit Samples.toy_cdist Samples.toy_min_rows sumQ
      Samples.toy_div 0%nat 2 Samples.world_2 = (Ok (ds, ins), w1) /\
    choose_k_means Samples.toy_fit Samples.toy_cdist Samples.toy_min_rows sumQ
      Samples.toy_div 0%nat 5 Samples.world_2 = (Ok (ds', ins'), w2) /\
    ds `prefix_of` ds' /\
    ins `prefix_of` ins'.
Proof.
  apply (choose_k_means_extends Q unit Samples.toy_fit Samples.toy_cdist
           Samples.toy_min_rows sumQ Samples.toy_div Samples.world_2 0%nat
           Samples.table_2 2 5).
  - reflexivity.
  - lia.
Defined.

(** ** [convert_to_datetime] *)

Section ToDatetimeFacts.
Variable to_datetime : Series -> Result Series.

(** X22.  With both columns present, [convert_to_datetime] replaces [Start]
    and [End] by what the parser makes of them and touches nothing else:
    rows, labels, their order and every other column stay; nothing is
    printed and the table is returned. *)
Theorem convert_to_datetime_converts_both w df T s e s' e' :
  heap w !! df = Some T ->
  wf_frame T ->
  lookup_col "Start" (columns T) = Some s ->
  lookup_col "End" (columns T) = Some e ->
  to_datetime s = Ok s' -> length s' = length s ->
  to_datetime e = Ok e' -> length e' = length e ->
  exists T',
    convert_to_datetime to_datetime df w =
      (Ok (PyFrame df), mkWorld (<[df := T']> (heap w)) (stdout w)) /\
    lookup_col "Start" (columns T') = Some s' /\
    lookup_col "End" (columns T') = Some e' /\
    (forall c, c <> "Start" -> c <> "End" ->
       lookup_col c (columns T') = lookup_col c (columns T)) /\
    map fst (columns T') = map fst (columns T) /\
    index_len T' = index_len T.
Proof.
  intros Hdf Hwf Hs He Es Ls Ee Le.
  pose proof (wf_lookup _ _ _ Hwf Hs) as Hls.
  pose proof (wf_lookup _ _ _ Hwf He) as Hle.
  set (T1 := mkDataFrame (index_len T) (assign_col "Start" s' (columns T))).
  set (w1 := mkWorld (<[df := T1]> (heap w)) (stdout w)).
  assert (H1 : heap w1 !! df = Some T1) by apply lookup_insert_eq.
  assert (He1 : lookup_col "End" (columns T1) = Some e).
  { cbn [T1 columns]. rewrite lookup_assign_other by discriminate. exact He. }
  exists (mkDataFrame (index_len T) (assign_col "End" e' (columns T1))).
  split.
  { unfold convert_to_datetime.
    erewrite bind_ok.
    2:{ apply try_ok.
        run_with ltac:(eapply getitem_ok; eassumption).
        run_lift Es.
        run_with ltac:(eapply (setitem_ok w df T); [exact Hdf | congruence]).
        fold T1. fold w1.
        run_with ltac:(eapply getitem_ok; eassumption).
        run_lift Ee.
        eapply (setitem_ok w1 df T1); [exact H1 | cbn [T1 index_len]; congruence]. }
    cbn [w1 heap stdout T1 index_len]. rewrite insert_insert_eq. reflexivity. }
  cbn [columns index_len T1].
  split; [rewrite lookup_assign_other by discriminate; apply lookup_assign_same|].
  split; [apply lookup_assign_same|].
  split.
  { intros c Hc1 Hc2. rewrite !lookup_assign_other by congruence. reflexivity. }
  split; [|reflexivity].
  erewrite assign_col_names by exact He1.
  eapply assign_col_names; exact Hs.
Qed.

(** X23.  Without a [Start] column nothing is converted, [End] included: the
    [KeyError] is printed, the store is as it was and the table is
    returned. *)
Theorem convert_to_datetime_without_start w df T :
  heap w !! df = Some T ->
  lookup_col "Start" (columns T) = None ->
  convert_to_datetime to_datetime df w =
    (Ok (PyFrame df),
     mkWorld (heap w) (stdout w ++ [[PError (KeyError "Start")]])).
Proof.
  intros Hdf Hs. unfold convert_to_datetime.
  erewrite bind_ok.
  2:{ erewrite try_raise.
      2:{ eapply bind_raise. eapply getitem_absent; eassumption. }
      apply print_run. }
  reflexivity.
Qed.

(** X24.  The conversion is not all or nothing.  With a [Start] column and no
    [End] column, [Start] is converted and stays converted, the [KeyError]
    for [End] is printed, and the half-converted table is returned. *)
Theorem convert_to_datetime_without_end w df T s s' :
  heap w !! df = Some T ->
  wf_frame T ->
  lookup_col "Start" (columns T) = Some s ->
  lookup_col "End" (columns T) = None ->
  to_datetime s = Ok s' -> length s' = length s ->
  exists T',
    convert_to_datetime to_datetime df w =
      (Ok (PyFrame df),
       mkWorld (<[df := T']> (heap w)) (stdout w ++ [[PError (KeyError "End")]])) /\
    lookup_col "Start" (columns T') = Some s' /\
    (forall c, c <> "Start" ->
       lookup_col c (columns T') = lookup_col c (columns T)).
Proof.
  intros Hdf Hwf Hs He Es Ls.
  pose proof (wf_lookup _ _ _ Hwf Hs) as Hls.
  set (T1 := mkDataFrame (index_len T) (assign_col "Start" s' (columns T))).
  set (w1 := mkWorld (<[df := T1]> (heap w)) (stdout w)).
  assert (H1 : heap w1 !! df = Some T1) by apply lookup_insert_eq.
  assert (He1 : lookup_col "End" (columns T1) = None).
  { cbn [T1 columns]. rewrite lookup_assign_other by discriminate. exact He. }
  exists T1. split.
  { unfold convert_to_datetime.
    erewrite bind_ok.
    2:{ erewrite try_raise.
        2:{ run_with ltac:(eapply getitem_ok; eassumption).
            run_lift Es.
            run_with ltac:(eapply (setitem_ok w df T); [exact Hdf | congruence]).
            fold T1. fold w1.
            eapply bind_raise. eapply getitem_absent; eassumption. }
        apply print_run. }
    reflexivity. }
  cbn [T1 columns]. split; [apply lookup_assign_same|].
  intros c Hc. apply lookup_assign_other. congruence.
Qed.

End ToDatetimeFacts.

Lemma convert_to_datetime_converts_both_witness :
  exists T',
    convert_to_datetime toy_to_datetime 0%nat world_SE =
      (Ok (PyFrame 0%nat), mkWorld (<[0%nat := T']> (heap world_SE)) (stdout world_SE)) /\
    lookup_col "Start" (columns T') = Some [Num 1; Null] /\
    lookup_col "End" (columns T') = Some [Num 2; Null] /\
    (forall c, c <> "Start" -> c <> "End" ->
       lookup_col c (columns T') = lookup_col c (columns table_SE)) /\
    map fst (columns T') = map fst (columns table_SE) /\
    index_len T' = index_len table_SE.
Proof.
  apply (convert_to_datetime_converts_both toy_to_datetime world_SE 0%nat table_SE
           [Num 1; Str "soon"] [Num 2; Null] [Num 1; Null] [Num 2; Null]);
    try reflexivity.
  repeat constructor.
Defined.

Lemma convert_to_datetime_without_start_witness :
  convert_to_datetime toy_to_datetime 0%nat Samples.world_AB =
    (Ok (PyFrame 0%nat),
     mkWorld (heap Samples.world_AB)
       (stdout Samples.world_AB ++ [[PError (KeyError "Start")]])).
Proof.
  apply (convert_to_datetime_without_start toy_to_datetime Samples.world_AB 0%nat
           Samples.table_AB); reflexivity.
Defined.

Lemma convert_to_datetime_without_end_witness :
  exists T',
    convert_to_datetime toy_to_datetime 0%nat world_S =
      (Ok (PyFrame 0%nat),
       mkWorld (<[0%nat := T']> (heap world_S))
         (stdout world_S ++ [[PError (KeyError "End")]])) /\
    lookup_col "Start" (columns T') = Some [Num 1; Null] /\
    (forall c, c <> "Start" ->
       lookup_col c (columns T') = lookup_col c (columns table_S)).
Proof.
  apply (convert_to_datetime_without_end toy_to_datetime world_S 0%nat table_S
           [Num 1; Str "soon"] [Num 1; Null]); try reflexivity.
  repeat constructor.
Defined.


(** ** [computeBasicAnalysisOnClusters] *)

Section ClusterFacts.
Variable describe : DataFrame -> Result string.

#[local] Abbreviation analyse := (computeBasicAnalysisOnClusters describe).

(** A turn only prints. *)
Lemma cluster_step_only_prints df cluster_col cols i w :
  exists r out,
    cluster_step describe df cluster_col cols i w =
      (r, mkWorld (heap w) (stdout w ++ out)).
Proof.
  assert (Hnil : forall (r : Result unit),
            (r, w) = (r, mkWorld (heap w) (stdout w ++ []))).
  { intros r. rewrite app_nil_r. now destruct w. }
  unfold cluster_step.
  destruct (heap w !! df) as [T|] eqn:Hdf.
  2:{ eexists _, []. erewrite bind_raise; [apply Hnil|].
      unfold getitem. eapply bind_raise. unfold load. now rewrite Hdf. }
  destruct (frame_getitem T cluster_col) as [labels|e] eqn:El.
  2:{ eexists _, []. erewrite bind_raise; [apply Hnil|].
      rewrite (getitem_run _ _ _ _ Hdf), El. reflexivity. }
  run_with ltac:(rewrite (getitem_run _ _ _ _ Hdf), El; reflexivity).
  run_with ltac:(apply load_run; exact Hdf). cbv beta.
  destruct (frame_getitem_mask T (Series_eq_int labels i)) as [cluster|e] eqn:Em.
  2:{ eexists _, []. erewrite bind_raise; [apply Hnil|]. reflexivity. }
  run_with ltac:(reflexivity).
  run_with ltac:(apply print_run). cbv beta.
  destruct (frame_getitem_list cluster cols) as [sub|e] eqn:Es.
  2:{ eexists _, [_]. eapply bind_raise. reflexivity. }
  run_with ltac:(reflexivity). cbv beta.
  destruct (describe sub) as [text|e] eqn:Ed.
  2:{ eexists _, [_]. eapply bind_raise. reflexivity. }
  run_with ltac:(reflexivity).
  run_with ltac:(apply print_run).
  rewrite print_run. cbn [heap stdout].
  eexists _, [_; _; _]. rewrite <- !app_assoc. reflexivity.
Qed.

Lemma cluster_loop_only_prints df cluster_col cols K w :
  exists r out,
    for_each K (cluster_step describe df cluster_col cols) w =
      (r, mkWorld (heap w) (stdout w ++ out)).
Proof.
  revert w. induction K as [|i K IH]; intros w.
  - exists (Ok tt), []. rewrite app_nil_r. now destruct w.
  - simpl for_each. unfold mbind, ST_bind.
    destruct (cluster_step_only_prints df cluster_col cols i w) as (r & out & ->).
    destruct r as [[]|e]; [|eauto].
    destruct (IH (mkWorld (heap w) (stdout w ++ out))) as (r' & out' & ->).
    cbn [heap stdout]. rewrite <- app_assoc. eauto.
Qed.

(** X25.  [computeBasicAnalysisOnClusters] only observes: for every argument
    and store it returns [None], raises nothing and changes no table; all
    it does is print. *)
Theorem computeBasicAnalysisOnClusters_only_prints df cluster_col size cols w :
  exists out,
    computeBasicAnalysisOnClusters describe df cluster_col size cols w =
      (Ok PyNone, mkWorld (heap w) (stdout w ++ out)).
Proof.
  unfold computeBasicAnalysisOnClusters, try_except.
  destruct (cluster_loop_only_prints df cluster_col cols (py_range 0 size) w)
    as (r & out & Hrun).
  unfold mbind at 1, ST_bind at 1. rewrite Hrun.
  destruct r as [[]|e].
  - eexists. reflexivity.
  - exists (out ++ [[PError e]]). unfold print. cbn [heap stdout].
    now rewrite <- app_assoc.
Qed.

(** One turn on a table that has the cluster column and the listed
    columns, when the statistics can be computed. *)
Lemma cluster_step_run w df T cluster_col cols i text :
  heap w !! df = Some T ->
  cluster_text describe T cluster_col cols i = Ok text ->
  cluster_step describe df cluster_col cols i w =
    (Ok tt,
     mkWorld (heap w) (stdout w ++ [banner i; [PText text]; [PText newline]])).
Proof.
  intros Hdf Ht. unfold cluster_text, cluster_table in Ht.
  destruct (frame_getitem T cluster_col) as [labels|] eqn:El; [|discriminate].
  cbn [rbind] in Ht.
  destruct (frame_getitem_mask T _) as [cluster|] eqn:Em; [|discriminate].
  cbn [rbind] in Ht.
  destruct (frame_getitem_list cluster cols) as [sub|] eqn:Es; [|discriminate].
  cbn [rbind] in Ht.
  unfold cluster_step.
  run_with ltac:(rewrite (getitem_run _ _ _ _ Hdf), El; reflexivity).
  run_with ltac:(apply load_run; exact Hdf).
  run_lift Em.
  run_with ltac:(apply print_run).
  run_lift Es. run_lift Ht.
  run_with ltac:(apply print_run).
  rewrite print_run. cbn [heap stdout]. rewrite <- !app_assoc. reflexivity.
Qed.

Lemma cluster_loop_run w df T cluster_col cols K :
  heap w !! df = Some T ->
  (forall i, In i K -> exists text, cluster_text describe T cluster_col cols i = Ok text) ->
  for_each K (cluster_step describe df cluster_col cols) w =
    (Ok tt,
     mkWorld (heap w)
       (stdout w ++ concat (map (cluster_block describe T cluster_col cols) K))).
Proof.
  intros Hdf. revert w Hdf. induction K as [|i K IH]; intros w Hdf HK.
  - simpl. rewrite app_nil_r. now destruct w.
  - destruct (HK i (or_introl eq_refl)) as (text & Ht).
    simpl for_each.
    erewrite bind_ok by (apply (cluster_step_run w df T cluster_col cols i text Hdf Ht)).
    rewrite IH; [|exact Hdf|intros; apply HK; now right].
    cbn [heap stdout map concat]. unfold cluster_block at 2. rewrite Ht.
    rewrite <- app_assoc. reflexivity.
Qed.

Lemma In_range0 i n : In i (py_range 0 n) -> (0 <= i < n)%Z.
Proof.
  unfold py_range. intros H.
  apply list_elem_of_In, list_elem_of_lookup in H as (j & Hj).
  apply lookup_seqZ in Hj. lia.
Qed.

(** X26.  When every cluster can be described, the method prints, for each
    label [i] from 0 to [cluster_size - 1] in turn, three lines: the banner
    "Cluster " followed by [i + 1] marks "I", the statistics of the listed
    columns over the rows whose cluster cell equals [i], and a blank line;
    nothing else is printed. *)
Theorem computeBasicAnalysisOnClusters_prints_blocks w df T cluster_col size cols :
  heap w !! df = Some T ->
  (forall i, (0 <= i < size)%Z ->
     exists text, cluster_text describe T cluster_col cols i = Ok text) ->
  computeBasicAnalysisOnClusters describe df cluster_col size cols w =
    (Ok PyNone,
     mkWorld (heap w)
       (stdout w ++
        concat (map (cluster_block describe T cluster_col cols) (py_range 0 size)))).
Proof.
  intros Hdf Hall. unfold computeBasicAnalysisOnClusters.
  erewrite bind_ok.
  2:{ apply try_ok. apply (cluster_loop_run w df T cluster_col cols _ Hdf).
      intros i Hi. apply Hall. now apply In_range0. }
  reflexivity.
Qed.

(** X27.  With no cluster to look at ([cluster_size] at most 0) the method
    prints nothing, whatever the table and the columns. *)
Theorem computeBasicAnalysisOnClusters_no_cluster w df cluster_col size cols :
  (size <= 0)%Z ->
  computeBasicAnalysisOnClusters describe df cluster_col size cols w =
    (Ok PyNone, w).
Proof.
  intros Hs. unfold computeBasicAnalysisOnClusters, py_range.
  rewrite seqZ_nil by lia. reflexivity.
Qed.

Lemma range0_cons n : (0 < n)%Z -> py_range 0 n = 0%Z :: seqZ 1 (Z.pred n).
Proof.
  intros H. unfold py_range. replace (n - 0)%Z with n by lia.
  now rewrite seqZ_cons by lia.
Qed.

(** X28.  Without the cluster column the method stops at once: the [KeyError]
    of that label is all it prints, not even a banner. *)
Theorem computeBasicAnalysisOnClusters_without_cluster_column
    w df T cluster_col size cols :
  heap w !! df = Some T ->
  (0 < size)%Z ->
  lookup_col cluster_col (columns T) = None ->
  computeBasicAnalysisOnClusters describe df cluster_col size cols w =
    (Ok PyNone,
     mkWorld (heap w) (stdout w ++ [[PError (KeyError cluster_col)]])).
Proof.
  intros Hdf Hs Hc. unfold computeBasicAnalysisOnClusters.
  rewrite (range0_cons size Hs).
  erewrite bind_ok.
  2:{ erewrite try_raise.
      2:{ simpl for_each. eapply bind_raise. unfold cluster_step.
          eapply bind_raise. eapply getitem_absent; eassumption. }
      apply print_run. }
  reflexivity.
Qed.


End ClusterFacts.

Lemma computeBasicAnalysisOnClusters_prints_blocks_witness :
  computeBasicAnalysisOnClusters toy_describe 0%nat "k" 2 ["v"] world_K =
    (Ok PyNone,
     mkWorld (heap world_K)
       (stdout world_K ++
        concat (map (cluster_block toy_describe table_K "k" ["v"]) (py_range 0 2)))).
Proof.
  apply (computeBasicAnalysisOnClusters_prints_blocks toy_describe world_K 0%nat
           table_K "k" 2 ["v"]).
  - reflexivity.
  - intros i Hi. assert (i = 0 \/ i = 1)%Z as [-> | ->] by lia;
      eexists; reflexivity.
Defined.

(** Two clusters over three rows: labels 0, 1, 0. *)
Example computeBasicAnalysisOnClusters_two_clusters :
  stdout (snd (computeBasicAnalysisOnClusters toy_describe 0%nat "k" 2 ["v"] world_K)) =
    [[PText "Cluster I"]; [PText "**"]; [PText newline];
     [PText "Cluster II"]; [PText "*"]; [PText newline]].
Proof. vm_compute. reflexivity. Qed.

Lemma computeBasicAnalysisOnClusters_no_cluster_witness :
  computeBasicAnalysisOnClusters toy_describe 0%nat "k" 0 ["v"] world_K =
    (Ok PyNone, world_K).
Proof.
  apply (computeBasicAnalysisOnClusters_no_cluster toy_describe world_K 0%nat
           "k" 0 ["v"]).
  lia.
Defined.

Lemma computeBasicAnalysisOnClusters_without_cluster_column_witness :
  computeBasicAnalysisOnClusters toy_describe 0%nat "cluster" 3 ["v"] world_K =
    (Ok PyNone,
     mkWorld (heap world_K) (stdout world_K ++ [[PError (KeyError "cluster")]])).
Proof.
  apply (computeBasicAnalysisOnClusters_without_cluster_column toy_describe
           world_K 0%nat table_K "cluster" 3 ["v"]).
  - reflexivity.
  - lia.
  - reflexivity.
Defined.

